(** * WinRegal: a shallow embedding of [winregal.py]

    The module wraps Python's [winreg] ([_winreg] on Python 2.7).  Strings are
    byte strings as on Python 2.7, so [str.upper] is the ASCII upper-casing.
    [os.path] is [ntpath]: the module only exists on Windows. *)

From Stdlib Require Import String Ascii List ZArith Bool Lia.
Import ListNotations.
Local Open Scope string_scope.

(** ** Python strings *)

Module PyStr.

Definition sep : ascii := "\"%char.
Definition altsep : ascii := "/"%char.
Definition colon : ascii := ":"%char.

(** [c in '\\/'] *)
Definition is_sep (c : ascii) : bool := Ascii.eqb c sep || Ascii.eqb c altsep.

Definition upper_char (c : ascii) : ascii :=
  let n := nat_of_ascii c in
  if (97 <=? n)%nat && (n <=? 122)%nat then ascii_of_nat (n - 32) else c.

(** [s.upper()] *)
Fixpoint upper (s : string) : string :=
  match s with
  | EmptyString => EmptyString
  | String c s' => String (upper_char c) (upper s')
  end.

Definition lower_char (c : ascii) : ascii :=
  let n := nat_of_ascii c in
  if (65 <=? n)%nat && (n <=? 90)%nat then ascii_of_nat (n + 32) else c.

(** [s.lower()] *)
Fixpoint lower (s : string) : string :=
  match s with
  | EmptyString => EmptyString
  | String c s' => String (lower_char c) (lower s')
  end.

(** [s.split(c)] for a one-character separator: never the empty list. *)
Fixpoint split (c : ascii) (s : string) : list string :=
  match s with
  | EmptyString => [EmptyString]
  | String a s' =>
      if Ascii.eqb a c then EmptyString :: split c s'
      else match split c s' with
           | [] => [String a EmptyString]
           | x :: xs => String a x :: xs
           end
  end.

(** [s.replace(a, b)] for one-character [a] and [b] *)
Fixpoint replace (a b : ascii) (s : string) : string :=
  match s with
  | EmptyString => EmptyString
  | String c s' => String (if Ascii.eqb c a then b else c) (replace a b s')
  end.

(** [s[:n]] and [s[n:]] *)
Fixpoint take (n : nat) (s : string) : string :=
  match n, s with
  | S n', String c s' => String c (take n' s')
  | _, _ => EmptyString
  end.

Fixpoint drop (n : nat) (s : string) : string :=
  match n, s with
  | S n', String _ s' => drop n' s'
  | _, _ => s
  end.

(** [s.find(c, start)], [None] for -1 *)
Fixpoint find_at (c : ascii) (s : string) (pos : nat) : option nat :=
  match s with
  | EmptyString => None
  | String a s' => if Ascii.eqb a c then Some pos else find_at c s' (S pos)
  end.

Definition find (c : ascii) (s : string) (start : nat) : option nat :=
  find_at c (drop start s) start.

(** [s[-1]] when [s] is not empty *)
Fixpoint last (s : string) : option ascii :=
  match s with
  | EmptyString => None
  | String c EmptyString => Some c
  | String _ s' => last s'
  end.

Definition head (s : string) : option ascii := String.get 0 s.

Definition char_is (o : option ascii) (c : ascii) : bool :=
  match o with Some a => Ascii.eqb a c | None => false end.

Definition char_in_seps (o : option ascii) : bool :=
  match o with Some a => is_sep a | None => false end.

Definition nonempty (s : string) : bool :=
  match s with EmptyString => false | _ => true end.

(** [sep.join(l)] *)
Definition join_with (c : ascii) (l : list string) : string :=
  String.concat (String c EmptyString) l.

(** a character occurs in a string *)
Fixpoint mem (c : ascii) (s : string) : bool :=
  match s with
  | EmptyString => false
  | String a s' => Ascii.eqb a c || mem c s'
  end.

End PyStr.

(** ** [ntpath]: the functions of [os.path] the module calls *)

Module NtPath.
Import PyStr.

(** [ntpath.splitdrive] *)
Definition splitdrive (p : string) : string * string :=
  if (1 <? String.length p)%nat then
    let normp := replace altsep sep p in
    if (char_is (String.get 0 normp) sep && char_is (String.get 1 normp) sep)
         && negb (char_is (String.get 2 normp) sep) then
      match find sep normp 2 with
      | None => ("", p)
      | Some index =>
          match find sep normp (index + 1) with
          | Some index2 =>
              if (index2 =? index + 1)%nat then ("", p)
              else (take index2 p, drop index2 p)
          | None => (take (String.length p) p, drop (String.length p) p)
          end
      end
    else if char_is (String.get 1 normp) colon then (take 2 p, drop 2 p)
    else ("", p)
  else ("", p).

(** one turn of the loop of [ntpath.join] over the state
    [(result_drive, result_path)] *)
Definition join_step (st : string * string) (p : string) : string * string :=
  let '(result_drive, result_path) := st in
  let '(p_drive, p_path) := splitdrive p in
  if nonempty p_path && char_in_seps (head p_path) then
    (if nonempty p_drive || negb (nonempty result_drive) then p_drive
     else result_drive, p_path)
  else
    let append (d : string) :=
      let result_path' :=
        if nonempty result_path && negb (char_in_seps (last result_path))
        then result_path ++ String sep EmptyString else result_path in
      (d, result_path' ++ p_path) in
    if nonempty p_drive && negb (String.eqb p_drive result_drive) then
      if negb (String.eqb (lower p_drive) (lower result_drive))
      then (p_drive, p_path)
      else append p_drive
    else append result_drive.

(** [ntpath.join] of [path] and the further [paths] *)
Definition join (path : string) (paths : list string) : string :=
  let '(result_drive, result_path) :=
    fold_left join_step paths (splitdrive path) in
  if (nonempty result_path && negb (char_in_seps (head result_path)))
       && (nonempty result_drive && negb (char_is (last result_drive) colon))
  then result_drive ++ String sep EmptyString ++ result_path
  else result_drive ++ result_path.

(** the first loop of [ntpath.split]: the part after the last slash *)
Fixpoint tail_of (p : string) : string :=
  match p with
  | EmptyString => EmptyString
  | String c p' => if mem sep p' || mem altsep p' then tail_of p'
                   else if is_sep c then p' else p
  end.

(** [ntpath.split(p)[-1]] *)
Definition split_tail (p : string) : string := tail_of (snd (splitdrive p)).

End NtPath.

(** ** Python values, exceptions and results *)

(** registry payloads, as [winreg] hands them over *)
Inductive pydata : Type :=
| PInt (z : Z)
| PStr (s : string)
| PNone.

(** The exceptions the module can meet.  [WinregalException] derives from
    [WindowsError], and [KeyNotOpenException] and [UnknownHkeyException] from
    [WinregalException]. *)
Inductive exn : Type :=
| WindowsError (winerror : Z)
| KeyNotOpenException
| UnknownHkeyException (msg : string)
| TypeError
| KeyError (key : Z).

(** [isinstance(e, WindowsError)], what [except WindowsError] tests *)
Definition isinstance_WindowsError (e : exn) : bool :=
  match e with
  | WindowsError _ | KeyNotOpenException | UnknownHkeyException _ => true
  | TypeError | KeyError _ => false
  end.

Inductive res (A : Type) : Type :=
| Ok (a : A)
| Raise (e : exn).
Arguments Ok {A} a.
Arguments Raise {A} e.

(** a native handle, the [PyHKEY] object of [winreg.OpenKey] *)
Definition HKEY := nat.

(** ** The [winreg] module, as the code uses it

    [W] is the state of the registry service.  [getattr_number name] is
    [getattr(winreg, name, None)] when that is an instance of [number_type],
    and [None] when the attribute is missing or of another type.  [CloseKey]
    returns nothing and accepts [None]. *)
Record Winreg (W : Type) : Type := {
  getattr_number : string -> option Z;
  OpenKey : Z -> string -> W -> res HKEY * W;
  CloseKey : option HKEY -> W -> W;
  QueryValueEx : HKEY -> string -> W -> res (pydata * Z);
  EnumKey : HKEY -> nat -> W -> res string;
  EnumValue : HKEY -> nat -> W -> res (string * pydata * Z)
}.
Arguments getattr_number {W} _ _.
Arguments OpenKey {W} _ _ _ _.
Arguments CloseKey {W} _ _ _.
Arguments QueryValueEx {W} _ _ _ _.
Arguments EnumKey {W} _ _ _ _.
Arguments EnumValue {W} _ _ _ _.

(** the predefined roots of the Windows registry *)
Definition HKEY_CLASSES_ROOT : Z := 0x80000000.
Definition HKEY_CURRENT_USER : Z := 0x80000001.
Definition HKEY_LOCAL_MACHINE : Z := 0x80000002.
Definition HKEY_USERS : Z := 0x80000003.
Definition HKEY_PERFORMANCE_DATA : Z := 0x80000004.
Definition HKEY_CURRENT_CONFIG : Z := 0x80000005.
Definition HKEY_DYN_DATA : Z := 0x80000006.

(** [RegKey.HKEY_MAP] *)
Definition HKEY_MAP : list (Z * string) :=
  [ (HKEY_CURRENT_USER, "HKEY_CURRENT_USER");
    (HKEY_CLASSES_ROOT, "HKEY_CLASSES_ROOT");
    (HKEY_CURRENT_CONFIG, "HKEY_CURRENT_CONFIG");
    (HKEY_DYN_DATA, "HKEY_DYN_DATA");
    (HKEY_LOCAL_MACHINE, "HKEY_LOCAL_MACHINE");
    (HKEY_PERFORMANCE_DATA, "HKEY_PERFORMANCE_DATA");
    (HKEY_USERS, "HKEY_USERS") ].

(** [HKEY_MAP[hkey]], [None] where Python raises [KeyError] *)
Fixpoint HKEY_MAP_get (m : list (Z * string)) (hkey : Z) : option string :=
  match m with
  | [] => None
  | (k, v) :: m' => if Z.eqb k hkey then Some v else HKEY_MAP_get m' hkey
  end.

(** the module attributes [HKEY_MAP] is built from are the ones [getattr]
    finds under their names *)
Definition roots_by_name {W} (api : Winreg W) : Prop :=
  forall id name, In (id, name) HKEY_MAP -> getattr_number api name = Some id.

(** ** [RegValue] and [RegKey] *)

Record RegValue : Type := {
  name : string;
  data : pydata;
  type : Z
}.

Record RegKey : Type := {
  _hkey_name : string;
  _path : string;
  _hkey : Z;
  _key : option HKEY;
  _deep : bool
}.

(** what [__iter__] yields *)
Inductive item : Type :=
| IValue (v : RegValue)
| IKey (k : RegKey).

(** what [to_dict] stores: a dict keeps the place of a key's first
    insertion and the value of its last *)
Inductive pyobj : Type :=
| ORaw (d : pydata)
| OValue (v : RegValue)
| ODict (d : list (string * pyobj)).

Definition dict := list (string * pyobj).

(** [d[k] = v] *)
Fixpoint dict_set (d : dict) (k : string) (v : pyobj) : dict :=
  match d with
  | [] => [(k, v)]
  | (k', v') :: d' =>
      if String.eqb k' k then (k', v) :: d' else (k', v') :: dict_set d' k v
  end.

(** [d.get(k)] *)
Fixpoint dict_get (d : dict) (k : string) : option pyobj :=
  match d with
  | [] => None
  | (k', v') :: d' => if String.eqb k' k then Some v' else dict_get d' k
  end.

(** [os.path.join] applied to an unpacked list: with no argument the call
    itself fails *)
Definition os_path_join (args : list string) : res string :=
  match args with
  | [] => Raise TypeError
  | a :: p => Ok (NtPath.join a p)
  end.

(** A segment [ntpath.join] appends as it is: not empty, no slash at
    either end, no colon in second place (a drive letter). *)
Definition plain_segment (s : string) : bool :=
  PyStr.nonempty s
  && negb (PyStr.char_in_seps (PyStr.head s))
  && negb (PyStr.char_is (String.get 1 s) PyStr.colon)
  && negb (PyStr.char_in_seps (PyStr.last s)).

(** A root-qualified path: the first segment names a root of [HKEY_MAP] in
    any case, and at least one segment follows, all of them plain. *)
Definition root_qualified (path : string) : bool :=
  match PyStr.split PyStr.sep path with
  | seg0 :: seg1 :: segs =>
      existsb (fun e => String.eqb (snd e) (PyStr.upper seg0)) HKEY_MAP
      && forallb plain_segment (seg1 :: segs)
  | _ => false
  end.

(** every segment with the separator before it *)
Fixpoint prefixed (l : list string) : string :=
  match l with
  | [] => ""
  | s :: l' => String PyStr.sep s ++ prefixed l'
  end.

(** ** The methods of [RegKey] *)

Section Methods.
Context {W : Type} (api : Winreg W).

(** [RegKey(path, hkey, deep)] *)
Definition __init__ (path : string) (hkey : option Z) (deep : bool)
  : res RegKey :=
  match hkey with
  | None =>
      let split_path := PyStr.split PyStr.sep path in
      let hkey_name := PyStr.upper (hd "" split_path) in
      match os_path_join (tl split_path) with
      | Raise e => Raise e
      | Ok path' =>
          match getattr_number api hkey_name with
          | None =>
              Raise (UnknownHkeyException
                       ("Couldn't find HKEY name " ++ hkey_name))
          | Some hkey' =>
              Ok {| _hkey_name := hkey_name; _path := path'; _hkey := hkey';
                    _key := None; _deep := deep |}
          end
      end
  | Some hkey' =>
      match HKEY_MAP_get HKEY_MAP hkey' with
      | None => Raise (KeyError hkey')
      | Some hkey_name =>
          Ok {| _hkey_name := hkey_name; _path := path; _hkey := hkey';
                _key := None; _deep := deep |}
      end
  end.

(** the property [name] of a key *)
Definition key_name (self : RegKey) : string := NtPath.split_tail (_path self).

Definition set_key (self : RegKey) (k : option HKEY) : RegKey :=
  {| _hkey_name := _hkey_name self; _path := _path self; _hkey := _hkey self;
     _key := k; _deep := _deep self |}.

(** [__enter__]: the object after the call, whatever [OpenKey] raises
    is raised again *)
Definition __enter__ (self : RegKey) (w : W) : res RegKey * W :=
  match OpenKey api (_hkey self) (_path self) w with
  | (Ok h, w') => (Ok (set_key self (Some h)), w')
  | (Raise e, w') => (Raise e, w')
  end.

(** [__exit__]: the three arguments describing a pending exception are not
    looked at *)
Definition __exit__ (self : RegKey) (exc : option exn) (w : W) : RegKey * W :=
  (set_key self None, CloseKey api (_key self) w).

(** [get_sub_key(sub_path, deep)] *)
Definition get_sub_key (self : RegKey) (sub_path : string)
  (deep : option bool) : res RegKey :=
  let deep' := match deep with None => _deep self | Some d => d end in
  match _key self with
  | None => Raise KeyNotOpenException
  | Some _ =>
      let path := NtPath.join (_path self) [sub_path] in
      __init__ path (Some (_hkey self)) deep'
  end.

(** [get_value(name)] *)
Definition get_value (self : RegKey) (nm : string) (w : W) : res RegValue :=
  match _key self with
  | None => Raise KeyNotOpenException
  | Some h =>
      match QueryValueEx api h nm w with
      | Ok (d, t) => Ok {| name := nm; data := d; type := t |}
      | Raise e => Raise e
      end
  end.

(** [self[item]] *)
Definition __getitem__ (self : RegKey) (it : string) (w : W) : res item :=
  match get_value self it w with
  | Ok v => Ok (IValue v)
  | Raise KeyNotOpenException => Raise KeyNotOpenException
  | Raise e =>
      if isinstance_WindowsError e then
        match get_sub_key self it None with
        | Ok k => Ok (IKey k)
        | Raise e' => Raise e'
        end
      else Raise e
  end.

(** A run that has not finished within its fuel is [None].  A finished run
    gives what the loop accumulated (the items yielded so far, or the dict
    under construction), how it ended, and the state of the service. *)
Definition run (S : Type) : Type := option ((S * res unit) * W).

(** The loop of [enum_keys] and [enum_values] with the consumer's loop body
    run at each [yield]:
    [i = 0; while True: try: yield prim(key, i); i += 1
                        except WindowsError: return]. *)
Fixpoint for_enum {X S : Type} (fuel : nat) (prim : nat -> W -> res X)
  (body : X -> S -> W -> run S) (i : nat) (s : S) (w : W) : run S :=
  match fuel with
  | O => None
  | Datatypes.S fuel' =>
      match prim i w with
      | Raise e =>
          if isinstance_WindowsError e then Some ((s, Ok tt), w)
          else Some ((s, Raise e), w)
      | Ok x =>
          match body x s w with
          | None => None
          | Some ((s', Raise e), w') => Some ((s', Raise e), w')
          | Some ((s', Ok _), w') => for_enum fuel' prim body (Datatypes.S i) s' w'
          end
      end
  end.

(** [for x in self.enum_keys(): body]: the generator checks [self._key]
    when it is first resumed *)
Definition for_enum_keys {S : Type} (fuel : nat) (self : RegKey)
  (body : string -> S -> W -> run S) (s : S) (w : W) : run S :=
  match _key self with
  | None => Some ((s, Raise KeyNotOpenException), w)
  | Some h => for_enum fuel (EnumKey api h) body 0 s w
  end.

(** [for x in self.enum_values(): body] *)
Definition for_enum_values {S : Type} (fuel : nat) (self : RegKey)
  (body : string * pydata * Z -> S -> W -> run S) (s : S) (w : W) : run S :=
  match _key self with
  | None => Some ((s, Raise KeyNotOpenException), w)
  | Some h => for_enum fuel (EnumValue api h) body 0 s w
  end.

(** a consumer that only collects what is yielded *)
Definition collect {X : Type} (x : X) (acc : list X) (w : W) : run (list X) :=
  Some (((acc ++ [x])%list, Ok tt), w).

(** [list(self.enum_keys())] *)
Definition enum_keys (fuel : nat) (self : RegKey) (w : W) : run (list string) :=
  for_enum_keys fuel self collect [] w.

(** [list(self.enum_values())] *)
Definition enum_values (fuel : nat) (self : RegKey) (w : W)
  : run (list (string * pydata * Z)) :=
  for_enum_values fuel self collect [] w.

(** [RegValue( *value_tuple)] *)
Definition RegValue_of (t : string * pydata * Z) : RegValue :=
  let '(n, d, ty) := t in {| name := n; data := d; type := ty |}.

(** one statement after another: the second runs when the first ended
    without an exception *)
Definition and_then {S : Type} (r : run S) (k : S -> W -> run S) : run S :=
  match r with
  | None => None
  | Some ((s, Raise e), w) => Some ((s, Raise e), w)
  | Some ((s, Ok _), w) => k s w
  end.

(** [with key: body]: [__exit__] runs on both ways out and returns [None],
    so an exception of the body goes on *)
Definition with_key {S : Type} (key : RegKey)
  (body : RegKey -> S -> W -> run S) (s : S) (w : W) : run S :=
  match __enter__ key w with
  | (Raise e, w1) => Some ((s, Raise e), w1)
  | (Ok key1, w1) =>
      match body key1 s w1 with
      | None => None
      | Some ((s', r), w2) =>
          let exc := match r with Raise e => Some e | Ok _ => None end in
          Some ((s', r), snd (__exit__ key1 exc w2))
      end
  end.

(** [__iter__], run to its end: [acc] is what has been yielded.  A key is
    yielded before it is opened. *)
Fixpoint __iter__ (fuel : nat) (self : RegKey) (acc : list item) (w : W)
  : run (list item) :=
  match fuel with
  | O => None
  | Datatypes.S fuel' =>
      and_then
        (for_enum_values fuel' self
           (fun value_tuple acc w =>
              Some (((acc ++ [IValue (RegValue_of value_tuple)])%list, Ok tt), w))
           acc w)
        (for_enum_keys fuel' self
           (fun key_path acc w =>
              match get_sub_key self key_path None with
              | Raise e => Some ((acc, Raise e), w)
              | Ok key =>
                  let acc' := (acc ++ [IKey key])%list in
                  if _deep self then
                    with_key key (fun key1 => __iter__ fuel' key1) acc' w
                  else Some ((acc', Ok tt), w)
              end))
  end.

(** [to_dict(keep_type)]: the accumulator is [res] *)
Fixpoint to_dict (fuel : nat) (self : RegKey) (keep_type : bool) (w : W)
  : option (res dict * W) :=
  match fuel with
  | O => None
  | Datatypes.S fuel' =>
      match
        and_then
          (for_enum_values fuel' self
             (fun value_tuple res w =>
                let value := RegValue_of value_tuple in
                let v := if keep_type then OValue value
                         else ORaw (data value) in
                Some ((dict_set res (name value) v, Ok tt), w))
             [] w)
          (for_enum_keys fuel' self
             (fun key_path res w =>
                match get_sub_key self key_path (Some false) with
                | Raise e => Some ((res, Raise e), w)
                | Ok key =>
                    with_key key
                      (fun key1 res w =>
                         match to_dict fuel' key1 false w with
                         | None => None
                         | Some (Raise e, w') => Some ((res, Raise e), w')
                         | Some (Ok d, w') =>
                             Some ((dict_set res (key_name key1) (ODict d),
                                    Ok tt), w')
                         end)
                      res w
                end))
      with
      | None => None
      | Some ((_, Raise e), w') => Some (Raise e, w')
      | Some ((res, Ok _), w') => Some (Ok res, w')
      end
  end.

End Methods.

(** ** A registry service to run the methods against

    Modelled from the spec: the [winreg] primitives are not part of the
    repository.  The service holds one tree of keys per root, a table of open
    native handles and the next free handle; the five primitives are the ones
    the spec lists as the external interface, with the Windows error codes
    2 (not found), 5 (access denied), 6 (invalid handle) and 259 (no more
    items). *)

Module Registry.

Inductive Key : Type :=
| MkKey (values : list (string * pydata * Z)) (subkeys : list (string * Key)).

Definition values_of (k : Key) : list (string * pydata * Z) :=
  match k with MkKey vs _ => vs end.

Definition subkeys_of (k : Key) : list (string * Key) :=
  match k with MkKey _ ks => ks end.

Record World : Type := {
  hives : list (Z * Key);
  handles : list (HKEY * Key);
  next_handle : HKEY
}.

Definition ERROR_FILE_NOT_FOUND : Z := 2.
Definition ERROR_ACCESS_DENIED : Z := 5.
Definition ERROR_INVALID_HANDLE : Z := 6.
Definition ERROR_NO_MORE_ITEMS : Z := 259.

Fixpoint assoc {A B : Type} (eqb : A -> A -> bool) (l : list (A * B)) (a : A)
  : option B :=
  match l with
  | [] => None
  | (a', b) :: l' => if eqb a' a then Some b else assoc eqb l' a
  end.

(** follow the segments of a path down from a key; empty segments are
    skipped *)
Fixpoint descend (segs : list string) (k : Key) : option Key :=
  match segs with
  | [] => Some k
  | seg :: segs' =>
      if PyStr.nonempty seg then
        match assoc String.eqb (subkeys_of k) seg with
        | Some k' => descend segs' k'
        | None => None
        end
      else descend segs' k
  end.

Definition resolve (w : World) (hkey : Z) (path : string) : option Key :=
  match assoc Z.eqb (hives w) hkey with
  | Some k => descend (PyStr.split PyStr.sep path) k
  | None => None
  end.

Definition open_key (hkey : Z) (path : string) (w : World) : res HKEY * World :=
  match resolve w hkey path with
  | Some k =>
      (Ok (next_handle w),
       {| hives := hives w;
          handles := (next_handle w, k) :: handles w;
          next_handle := S (next_handle w) |})
  | None => (Raise (WindowsError ERROR_FILE_NOT_FOUND), w)
  end.

Definition close_key (h : option HKEY) (w : World) : World :=
  match h with
  | None => w
  | Some h' =>
      {| hives := hives w;
         handles := filter (fun e => negb (Nat.eqb (fst e) h')) (handles w);
         next_handle := next_handle w |}
  end.

Definition first_value (vs : list (string * pydata * Z)) (nm : string)
  : option (pydata * Z) :=
  match List.find (fun v => String.eqb (fst (fst v)) nm) vs with
  | Some (_, d, t) => Some (d, t)
  | None => None
  end.

Definition query_value (h : HKEY) (nm : string) (w : World)
  : res (pydata * Z) :=
  match assoc Nat.eqb (handles w) h with
  | None => Raise (WindowsError ERROR_INVALID_HANDLE)
  | Some k =>
      match first_value (values_of k) nm with
      | Some v => Ok v
      | None => Raise (WindowsError ERROR_FILE_NOT_FOUND)
      end
  end.

Definition enum_key (h : HKEY) (i : nat) (w : World) : res string :=
  match assoc Nat.eqb (handles w) h with
  | None => Raise (WindowsError ERROR_INVALID_HANDLE)
  | Some k =>
      match nth_error (subkeys_of k) i with
      | Some (nm, _) => Ok nm
      | None => Raise (WindowsError ERROR_NO_MORE_ITEMS)
      end
  end.

Definition enum_value (h : HKEY) (i : nat) (w : World)
  : res (string * pydata * Z) :=
  match assoc Nat.eqb (handles w) h with
  | None => Raise (WindowsError ERROR_INVALID_HANDLE)
  | Some k =>
      match nth_error (values_of k) i with
      | Some v => Ok v
      | None => Raise (WindowsError ERROR_NO_MORE_ITEMS)
      end
  end.

(** the numbers of the module: the seven roots, by name *)
Definition number_of (nm : string) : option Z :=
  assoc String.eqb (map (fun e => (snd e, fst e)) HKEY_MAP) nm.

Definition winreg : Winreg World :=
  {| getattr_number := number_of;
     OpenKey := open_key;
     CloseKey := close_key;
     QueryValueEx := query_value;
     EnumKey := enum_key;
     EnumValue := enum_value |}.

(** the same service when the caller may list only the first [n] subkeys
    of a key and is refused the next *)
Definition winreg_denied (n : nat) : Winreg World :=
  {| getattr_number := number_of;
     OpenKey := open_key;
     CloseKey := close_key;
     QueryValueEx := query_value;
     EnumKey := fun h i w =>
       if (n <=? i)%nat then Raise (WindowsError ERROR_ACCESS_DENIED)
       else enum_key h i w;
     EnumValue := fun h i w =>
       if (n <=? i)%nat then Raise (WindowsError ERROR_ACCESS_DENIED)
       else enum_value h i w |}.

(** the key of the spec's example: values [A = 1] and [B = "x"], and a
    subkey [C] with the value [D = 2] *)
Definition REG_SZ : Z := 1.
Definition REG_DWORD : Z := 4.

Definition example_key : Key :=
  MkKey [("A", PInt 1, REG_DWORD); ("B", PStr "x", REG_SZ)]
        [("C", MkKey [("D", PInt 2, REG_DWORD)] [])].

(** a key with a value and a subkey of the same name *)
Definition clash_key : Key :=
  MkKey [("X", PInt 7, REG_DWORD)]
        [("X", MkKey [("Y", PStr "y", REG_SZ)] [])].

Definition example_world : World :=
  {| hives := [(HKEY_CURRENT_USER,
                MkKey [] [("Example", example_key); ("Clash", clash_key)])];
     handles := [];
     next_handle := 0 |}.

End Registry.

(** ** Handles on the example registry *)

Module Examples.
Import Registry.

(** [RegKey("HKEY_CURRENT_USER\Example")], before it is opened *)
Definition example_handle (deep : bool) : RegKey :=
  {| _hkey_name := "HKEY_CURRENT_USER"; _path := "Example";
     _hkey := HKEY_CURRENT_USER; _key := None; _deep := deep |}.

(** [RegKey("HKEY_CURRENT_USER\Clash")] *)
Definition clash_handle : RegKey :=
  {| _hkey_name := "HKEY_CURRENT_USER"; _path := "Clash";
     _hkey := HKEY_CURRENT_USER; _key := None; _deep := false |}.

(** the object and the service inside [with key:] *)
Definition entered (key : RegKey) : RegKey :=
  match fst (__enter__ winreg key example_world) with
  | Ok k => k
  | Raise _ => key
  end.

Definition entered_world (key : RegKey) : World :=
  snd (__enter__ winreg key example_world).

End Examples.

(** ** What the traversals should give on a registry tree

    These definitions follow the spec's words (sections 4.6 and 4.7) on the
    trees of the registry service, to compare [__iter__] and [to_dict]
    with. *)

Module TreeSpec.
Import Registry.

(** a key name [ntpath] treats as one plain component: not empty, no
    backslash, no slash, no colon in second place *)
Definition plain_name (n : string) : bool :=
  PyStr.nonempty n
  && negb (PyStr.mem PyStr.sep n)
  && negb (PyStr.mem PyStr.altsep n)
  && negb (PyStr.char_is (String.get 1 n) PyStr.colon).

Fixpoint distinct (l : list string) : bool :=
  match l with
  | [] => true
  | n :: l' => negb (existsb (String.eqb n) l') && distinct l'
  end.

(** the subkeys of every key of the tree have plain, distinct names *)
Fixpoint well_named (k : Key) : bool :=
  match k with
  | MkKey _ ks =>
      forallb plain_name (map fst ks)
      && distinct (map fst ks)
      && forallb (fun e => well_named (snd e)) ks
  end.

(** fuel that is enough to traverse a tree *)
Fixpoint size (k : Key) : nat :=
  match k with
  | MkKey vs ks =>
      2 + length vs + length ks
      + fold_right (fun e n => size (snd e) + n) 0 ks
  end.

(** every open handle is older than the next one to be given out *)
Definition handles_fresh (w : World) : Prop :=
  forall h k, In (h, k) (handles w) -> h < next_handle w.

(** the entry [to_dict] stores for a value *)
Definition value_entry (keep_type : bool) (d : dict)
  (t : string * pydata * Z) : dict :=
  dict_set d (name (RegValue_of t))
    (if keep_type then OValue (RegValue_of t) else ORaw (data (RegValue_of t))).

(** the nested mapping of a tree: the values first, then the subkeys, each
    under its name with its own mapping (of raw data) *)
Fixpoint mapping_of (keep_type : bool) (k : Key) : dict :=
  match k with
  | MkKey vs ks =>
      fold_left
        (fun d e => dict_set d (fst e) (ODict (mapping_of false (snd e))))
        ks (fold_left (value_entry keep_type) vs [])
  end.

(** the entry [to_dict] stores for the subkey of a given name *)
Definition subkey_entry (ks : list (string * Key)) (d : dict) (n : string)
  : dict :=
  match assoc String.eqb ks n with
  | Some sub => dict_set d n (ODict (mapping_of false sub))
  | None => d
  end.

(** the handle derived for the subkey [n] of the key at [segs] *)
Definition child_handle (root_name : string) (hkey : Z) (deep : bool)
  (segs : list string) (n : string) : RegKey :=
  {| _hkey_name := root_name;
     _path := PyStr.join_with PyStr.sep (segs ++ [n]);
     _hkey := hkey; _key := None; _deep := deep |}.

(** the sequence of a full iteration: the values, then every subkey's
    unopened handle, followed, when recursive, by the subkey's own
    sequence *)
Fixpoint items_of (root_name : string) (hkey : Z) (deep : bool)
  (k : Key) (segs : list string) : list item :=
  match k with
  | MkKey vs ks =>
      map (fun t => IValue (RegValue_of t)) vs
      ++ flat_map
           (fun e =>
              IKey (child_handle root_name hkey deep segs (fst e))
              :: (if deep
                  then items_of root_name hkey deep (snd e) (segs ++ [fst e])
                  else []))
           ks
  end.

(** what [__iter__] yields for the subkey of a given name *)
Definition subkey_items (root_name : string) (hkey : Z) (deep : bool)
  (segs : list string) (ks : list (string * Key)) (acc : list item)
  (n : string) : list item :=
  match assoc String.eqb ks n with
  | Some sub =>
      acc ++ IKey (child_handle root_name hkey deep segs n)
          :: (if deep
              then items_of root_name hkey deep sub (segs ++ [n])
              else [])
  | None => acc
  end.

(** a yielded handle is not open *)
Definition unopened (it : item) : bool :=
  match it with
  | IValue _ => true
  | IKey k => match _key k with None => true | Some _ => false end
  end.

(** the handle [self] is open in [w] on the key [k], which lies at the
    plain segments [s :: l] under a root of [HKEY_MAP] named [canonical] *)
Definition opened_at (w : World) (self : RegKey) (s : string)
  (l : list string) (k : Key) (canonical : string) : Prop :=
  forallb plain_name (s :: l) = true
  /\ _path self = PyStr.join_with PyStr.sep (s :: l)
  /\ HKEY_MAP_get HKEY_MAP (_hkey self) = Some canonical
  /\ (exists h, _key self = Some h /\ assoc Nat.eqb (handles w) h = Some k)
  /\ resolve w (_hkey self) (_path self) = Some k
  /\ handles_fresh w.

(** [w'] has the trees and the open handles of [w] *)
Definition same_handles (w w' : World) : Prop :=
  hives w' = hives w /\ handles w' = handles w
  /\ next_handle w <= next_handle w'.

(** the service after [OpenKey] has opened [k] *)
Definition after_open (w : World) (k : Key) : World :=
  {| hives := hives w;
     handles := (next_handle w, k) :: handles w;
     next_handle := S (next_handle w) |}.

End TreeSpec.

(** ** Display *)

(** [RegKey.__repr__]: ["RegKey(%s\%s)" % (self.hkey_name, self.path)] *)
Definition __repr__ (self : RegKey) : string :=
  "RegKey(" ++ _hkey_name self ++ String PyStr.sep (_path self) ++ ")".

(** a segment as [split] gives them: without the separator *)
Definition no_sep (s : string) : bool := negb (PyStr.mem PyStr.sep s).

(** ** A registry with a subkey that cannot be opened by its derived path *)

Module OddExamples.
Import Registry.

(** a key with the subkeys [C] and [/x]; [ntpath.join] takes the second
    name for an absolute path, so the derived handle does not resolve *)
Definition odd_key : Key :=
  MkKey [("V", PInt 5, REG_DWORD)]
        [("C", MkKey [("D", PInt 2, REG_DWORD)] [("E", MkKey [] [])]);
         ("/x", MkKey [] [])].

Definition odd_world : World :=
  {| hives := [(HKEY_USERS, MkKey [] [("Odd", odd_key)])];
     handles := [];
     next_handle := 0 |}.

(** [RegKey("HKEY_USERS\Odd", deep=True)], inside its [with] block *)
Definition odd_handle : RegKey :=
  {| _hkey_name := "HKEY_USERS"; _path := "Odd"; _hkey := HKEY_USERS;
     _key := Some 0; _deep := true |}.

Definition odd_entered_world : World :=
  TreeSpec.after_open odd_world odd_key.

End OddExamples.

(** ** Closing when the registry may refuse *)

(** [__exit__] over a [CloseKey] that may raise: the object after the call,
    how the call ended, and the service.  [winreg.CloseKey(self._key)] comes
    first; [self._key = None] is reached when it has returned.  The three
    arguments describing a pending exception are not looked at, and the
    method returns [None]. *)
Definition exit_with {W : Type} (close : option HKEY -> W -> res unit * W)
  (self : RegKey) (exc : option exn) (w : W) : (RegKey * res unit) * W :=
  match close (_key self) w with
  | (Ok _, w') =>
      (({| _hkey_name := _hkey_name self; _path := _path self;
           _hkey := _hkey self; _key := None; _deep := _deep self |}, Ok tt),
       w')
  | (Raise e, w') => ((self, Raise e), w')
  end.

Module Closing.
Import Registry.



End Closing.

(** ** A registry with a slash in a name *)

Module SlashExamples.
Import Registry.

(** a key with a value named [a/b] and a subkey named [a/b] *)
Definition slash_key : Key :=
  MkKey [("a/b", PInt 7, REG_DWORD)]
        [("a/b", MkKey [("Y", PStr "y", REG_SZ)] [])].

Definition slash_world : World :=
  {| hives := [(HKEY_USERS, MkKey [] [("Slash", slash_key)])];
     handles := [];
     next_handle := 0 |}.

(** [RegKey("HKEY_USERS\Slash")], inside its [with] block *)
Definition slash_handle : RegKey :=
  {| _hkey_name := "HKEY_USERS"; _path := "Slash"; _hkey := HKEY_USERS;
     _key := Some 0; _deep := false |}.

Definition slash_entered_world : World :=
  TreeSpec.after_open slash_world slash_key.

End SlashExamples.


(** * Properties *)

Example split_ex :
  PyStr.split PyStr.sep "HKEY_USERS\a\b" = ["HKEY_USERS"; "a"; "b"].
Proof. reflexivity. Qed.

Example join_ex : NtPath.join "a" ["b"; ""; "c/d"] = "a\b\c/d".
Proof. reflexivity. Qed.

Example split_tail_ex : NtPath.split_tail "SOFTWARE\Micro/soft" = "soft".
Proof. reflexivity. Qed.

(** ** Paths and roots *)

Section PathFacts.
Import PyStr.

Lemma split_not_nil (c : ascii) (s : string) : split c s <> [].
Proof.
  destruct s as [|a s]; simpl; [discriminate|].
  destruct (Ascii.eqb a c); [discriminate|].
  destruct (split c s); discriminate.
Qed.

Lemma split_without (c : ascii) (s : string) :
  mem c s = false -> split c s = [s].
Proof.
  induction s as [|a s IH]; simpl; intros H; [reflexivity|].
  apply orb_false_elim in H as [Ha Hs].
  rewrite Ha, (IH Hs). reflexivity.
Qed.

Lemma split_with (c : ascii) (s : string) :
  mem c s = true -> exists a b l, split c s = a :: b :: l.
Proof.
  induction s as [|x s IH]; simpl; intros H; [discriminate|].
  destruct (Ascii.eqb x c) eqn:E.
  - pose proof (split_not_nil c s) as N.
    destruct (split c s) as [|b l]; [contradiction|]. now exists "", b, l.
  - simpl in H. destruct (IH H) as (a & b & l & ->). now exists (String x a), b, l.
Qed.

Lemma upper_char_idem (c : ascii) : upper_char (upper_char c) = upper_char c.
Proof.
  destruct c as [[] [] [] [] [] [] [] []]; reflexivity.
Qed.

Lemma upper_idem (s : string) : upper (upper s) = upper s.
Proof.
  induction s as [|c s IH]; simpl; [reflexivity|].
  now rewrite upper_char_idem, IH.
Qed.

End PathFacts.

(** C10: a path without a separator and with no explicit root makes the
    constructor fail with [TypeError], whatever the registry module knows
    under the name: the remaining segments are joined, and fail to, before
    the name is looked up. *)
Theorem init_without_separator_TypeError :
  forall (W : Type) (api : Winreg W) (path : string) (deep : bool),
    PyStr.mem PyStr.sep path = false ->
    __init__ api path None deep = Raise TypeError.
Proof.
  intros W api path deep H. unfold __init__.
  rewrite (split_without _ _ H). reflexivity.
Qed.

Lemma init_without_separator_TypeError_witness :
  PyStr.mem PyStr.sep "HKEY_CURRENT_USER" = false /\
  Registry.number_of "HKEY_CURRENT_USER" = Some HKEY_CURRENT_USER /\
  __init__ Registry.winreg "HKEY_CURRENT_USER" None false = Raise TypeError.
Proof.
  split; [reflexivity|]. split; [reflexivity|].
  apply init_without_separator_TypeError. reflexivity.
Defined.

(** X19: with no explicit root, a path with a separator whose first
    segment, upper-cased, is not the name of a number of the registry module
    makes the constructor fail with [UnknownHkeyException]; no handle is
    built. *)
Theorem init_unknown_name_UnknownHkey :
  forall (W : Type) (api : Winreg W) (path : string) (deep : bool),
    PyStr.mem PyStr.sep path = true ->
    getattr_number api
      (PyStr.upper (hd "" (PyStr.split PyStr.sep path))) = None ->
    exists msg,
      __init__ api path None deep = Raise (UnknownHkeyException msg).
Proof.
  intros W api path deep Hsep Hname. unfold __init__.
  destruct (split_with _ _ Hsep) as (a & b & l & E).
  rewrite E in *. simpl in *. rewrite Hname. eauto.
Qed.

Lemma init_unknown_name_UnknownHkey_witness :
  exists msg,
    __init__ Registry.winreg "FOO\bar" None false
    = Raise (UnknownHkeyException msg).
Proof.
  apply init_unknown_name_UnknownHkey; reflexivity.
Defined.

(** C4, where the code misses it: the identifier 0 is not in [HKEY_MAP],
    and the constructor given it fails with [KeyError]; [FOO] is no name of
    the registry module, and the constructor given the path [FOO] alone fails
    with [TypeError]; so it is not true that every unknown root name or
    identifier ends in [UnknownHkeyException]. *)
Lemma init_unknown_root_not_UnknownHkey :
  HKEY_MAP_get HKEY_MAP 0 = None /\
  __init__ Registry.winreg "SOFTWARE" (Some 0%Z) false = Raise (KeyError 0) /\
  Registry.number_of "FOO" = None /\
  __init__ Registry.winreg "FOO" None false = Raise TypeError /\
  ~ (forall (path : string) (hkey : option Z),
        match hkey with
        | None => Registry.number_of
                    (PyStr.upper (hd "" (PyStr.split PyStr.sep path))) = None
        | Some id => HKEY_MAP_get HKEY_MAP id = None
        end ->
        exists msg,
          __init__ Registry.winreg path hkey false
          = Raise (UnknownHkeyException msg)).
Proof.
  repeat split; try reflexivity.
  intros H. destruct (H "SOFTWARE" (Some 0%Z) eq_refl) as [msg E].
  discriminate E.
Qed.

Section JoinFacts.
Import PyStr NtPath.

Lemma splitdrive_plain (s : string) :
  plain_segment s = true -> splitdrive s = ("", s).
Proof.
  unfold plain_segment, splitdrive. intros H.
  apply andb_prop in H as [H _]. apply andb_prop in H as [H Hc].
  apply andb_prop in H as [_ Hh].
  destruct s as [|a [|b s]]; try reflexivity.
  cbn [String.length Nat.ltb Nat.leb replace String.get head] in *.
  cbn [char_in_seps char_is is_sep] in *.
  apply negb_true_iff in Hh, Hc. apply orb_false_elim in Hh as [Ha1 Ha2].
  rewrite Ha2, Ha1. cbn [andb negb].
  destruct (Ascii.eqb b altsep) eqn:Eb.
  - reflexivity.
  - rewrite Hc. reflexivity.
Qed.

Lemma app_empty_r (s : string) : s ++ "" = s.
Proof. induction s as [|c s IH]; simpl; [reflexivity|now rewrite IH]. Qed.

Lemma last_app (a b : string) : nonempty b = true -> last (a ++ b) = last b.
Proof.
  intros Hb. induction a as [|c a IH]; [reflexivity|].
  simpl. rewrite IH. destruct (a ++ b) eqn:E; [|reflexivity].
  destruct a; simpl in E; [subst b|]; discriminate.
Qed.

Lemma nonempty_app_r (a b : string) : nonempty b = true -> nonempty (a ++ b) = true.
Proof. destruct a; simpl; auto. Qed.

Lemma join_with_prefixed (s : string) (l : list string) :
  join_with sep (s :: l) = s ++ prefixed l.
Proof.
  revert s. induction l as [|t l IH]; intros s.
  - cbn. now rewrite app_empty_r.
  - change (join_with sep (s :: t :: l))
      with (s ++ String sep EmptyString ++ join_with sep (t :: l)).
    rewrite IH. reflexivity.
Qed.

Lemma app_assoc_s (a b c : string) : (a ++ b) ++ c = a ++ b ++ c.
Proof. induction a; simpl; congruence. Qed.

Lemma join_step_plain (acc p : string) :
  nonempty acc = true -> char_in_seps (last acc) = false ->
  plain_segment p = true ->
  join_step ("", acc) p = ("", acc ++ String sep p).
Proof.
  intros Hn Hl Hp. unfold join_step. rewrite (splitdrive_plain p Hp).
  unfold plain_segment in Hp.
  apply andb_prop in Hp as [Hp _]. apply andb_prop in Hp as [Hp _].
  apply andb_prop in Hp as [_ Hh]. apply negb_true_iff in Hh.
  rewrite Hh, andb_false_r. cbn [nonempty andb].
  rewrite Hn, Hl. cbn [andb negb]. now rewrite app_assoc_s.
Qed.

Lemma fold_join_plain (l : list string) : forall acc,
  nonempty acc = true -> char_in_seps (last acc) = false ->
  forallb plain_segment l = true ->
  fold_left join_step l ("", acc) = ("", acc ++ prefixed l).
Proof.
  induction l as [|p l IH]; intros acc Hn Hl Hall.
  - simpl. now rewrite app_empty_r.
  - simpl in Hall. apply andb_prop in Hall as [Hp Hall].
    cbn [fold_left]. rewrite (join_step_plain acc p Hn Hl Hp).
    assert (Hp' := Hp). unfold plain_segment in Hp'.
    apply andb_prop in Hp' as [Hp' Hlast]. apply andb_prop in Hp' as [Hp' _].
    apply andb_prop in Hp' as [Hne _]. apply negb_true_iff in Hlast.
    rewrite IH; auto.
    + now rewrite app_assoc_s.
    + apply nonempty_app_r. reflexivity.
    + change (String sep p) with (String sep EmptyString ++ p).
      rewrite <- app_assoc_s. now rewrite last_app.
Qed.

Lemma join_plain (s : string) (l : list string) :
  forallb plain_segment (s :: l) = true ->
  join s l = join_with sep (s :: l).
Proof.
  intros H. simpl in H. apply andb_prop in H as [Hs Hl].
  unfold join. rewrite (splitdrive_plain s Hs).
  assert (Hs' := Hs). unfold plain_segment in Hs'.
  apply andb_prop in Hs' as [Hs' Hlast]. apply andb_prop in Hs' as [Hs' _].
  apply andb_prop in Hs' as [Hne _]. apply negb_true_iff in Hlast.
  rewrite (fold_join_plain l s Hne Hlast Hl).
  cbn [nonempty andb]. rewrite andb_false_r.
  now rewrite join_with_prefixed.
Qed.

End JoinFacts.

Lemma HKEY_MAP_get_In (id : Z) (nm : string) :
  In (id, nm) HKEY_MAP -> HKEY_MAP_get HKEY_MAP id = Some nm.
Proof.
  intros H. simpl in H.
  repeat (destruct H as [H|H]; [injection H as <- <-; reflexivity|]).
  contradiction.
Qed.

(** X17: with no explicit root, a path that is [root_qualified] (the first
    segment names a root in any case, every further segment is plain: not
    empty, no slash at either end, no colon in second place) is parsed into
    the root identifier whose name in [HKEY_MAP] is the first segment,
    compared without regard to case, and the relative path is the remaining
    segments put together again with the separator. *)
Theorem init_root_qualified :
  forall (W : Type) (api : Winreg W) (path : string) (deep : bool),
    roots_by_name api ->
    root_qualified path = true ->
    exists k canonical,
      __init__ api path None deep = Ok k /\
      HKEY_MAP_get HKEY_MAP (_hkey k) = Some canonical /\
      _hkey_name k = canonical /\
      PyStr.upper canonical
      = PyStr.upper (hd "" (PyStr.split PyStr.sep path)) /\
      _path k = PyStr.join_with PyStr.sep (tl (PyStr.split PyStr.sep path)) /\
      _key k = None /\ _deep k = deep.
Proof.
  intros W api path deep Hroots Hq. unfold root_qualified in Hq.
  unfold __init__.
  destruct (PyStr.split PyStr.sep path) as [|seg0 [|seg1 segs]];
    try discriminate.
  apply andb_prop in Hq as [Hname Hplain].
  apply existsb_exists in Hname as [[id nm] [Hin Heq]].
  apply String.eqb_eq in Heq. simpl in Heq. subst nm.
  cbn [hd tl os_path_join]. rewrite (Hroots _ _ Hin).
  eexists. exists (PyStr.upper seg0). split; [reflexivity|]. cbn.
  repeat split.
  - apply (HKEY_MAP_get_In _ _ Hin).
  - apply upper_idem.
  - apply (join_plain _ _ Hplain).
Qed.

Lemma registry_roots_by_name : roots_by_name Registry.winreg.
Proof.
  intros id nm H. simpl in H.
  repeat (destruct H as [H|H]; [injection H as <- <-; reflexivity|]).
  contradiction.
Qed.

Lemma init_root_qualified_witness :
  exists k canonical,
    __init__ Registry.winreg "hkey_Local_Machine\SOFTWARE\Micro/soft\Run"
      None true = Ok k /\
    HKEY_MAP_get HKEY_MAP (_hkey k) = Some canonical /\
    _hkey_name k = canonical /\
    PyStr.upper canonical
    = PyStr.upper
        (hd "" (PyStr.split PyStr.sep
                  "hkey_Local_Machine\SOFTWARE\Micro/soft\Run")) /\
    _path k
    = PyStr.join_with PyStr.sep
        (tl (PyStr.split PyStr.sep
               "hkey_Local_Machine\SOFTWARE\Micro/soft\Run")) /\
    _key k = None /\ _deep k = true.
Proof.
  apply init_root_qualified; [exact registry_roots_by_name | reflexivity].
Defined.

(** ** Closing and closed handles *)

Lemma assoc_filter_out (h : HKEY) (l : list (HKEY * Registry.Key)) :
  Registry.assoc Nat.eqb
    (filter (fun e => negb (Nat.eqb (fst e) h)) l) h = None.
Proof.
  induction l as [|[h' k] l IH]; simpl; [reflexivity|].
  destruct (Nat.eqb h' h) eqn:E; simpl; [exact IH|].
  now rewrite E.
Qed.

(** C8: once a handle has been opened and closed, [get_value], [self[item]],
    [get_sub_key], both enumerations, the iteration and [to_dict] all raise
    [KeyNotOpenException], and leave the service as it is. *)
Theorem closed_handle_raises_KeyNotOpen :
  forall (W : Type) (api : Winreg W) (self opened : RegKey) (w w1 : W)
         (exc : option exn) (nm : string) (deep : option bool)
         (keep_type : bool) (fuel : nat),
    __enter__ api self w = (Ok opened, w1) ->
    let closed := fst (__exit__ api opened exc w1) in
    let w2 := snd (__exit__ api opened exc w1) in
    get_value api closed nm w2 = Raise KeyNotOpenException /\
    __getitem__ api closed nm w2 = Raise KeyNotOpenException /\
    get_sub_key api closed nm deep = Raise KeyNotOpenException /\
    enum_keys api fuel closed w2 = Some (([], Raise KeyNotOpenException), w2) /\
    enum_values api fuel closed w2
    = Some (([], Raise KeyNotOpenException), w2) /\
    __iter__ api (S fuel) closed [] w2
    = Some (([], Raise KeyNotOpenException), w2) /\
    to_dict api (S fuel) closed keep_type w2
    = Some (Raise KeyNotOpenException, w2).
Proof.
  intros W api self opened w w1 exc nm deep keep_type fuel _.
  cbn. repeat split.
Qed.

Lemma closed_handle_raises_KeyNotOpen_witness :
  let self := Examples.example_handle false in
  let opened := Examples.entered self in
  let w1 := Examples.entered_world self in
  _key opened = Some 0 /\
  let closed := fst (__exit__ Registry.winreg opened None w1) in
  let w2 := snd (__exit__ Registry.winreg opened None w1) in
  get_value Registry.winreg closed "A" w2 = Raise KeyNotOpenException /\
  __getitem__ Registry.winreg closed "A" w2 = Raise KeyNotOpenException /\
  get_sub_key Registry.winreg closed "A" None = Raise KeyNotOpenException /\
  enum_keys Registry.winreg 0 closed w2
  = Some (([], Raise KeyNotOpenException), w2) /\
  enum_values Registry.winreg 0 closed w2
  = Some (([], Raise KeyNotOpenException), w2) /\
  __iter__ Registry.winreg 1 closed [] w2
  = Some (([], Raise KeyNotOpenException), w2) /\
  to_dict Registry.winreg 1 closed false w2
  = Some (Raise KeyNotOpenException, w2).
Proof.
  split; [reflexivity|].
  apply (closed_handle_raises_KeyNotOpen Registry.World Registry.winreg
           (Examples.example_handle false) _ Registry.example_world).
  reflexivity.
Defined.

(** ** Item lookup *)




(** ** Enumeration *)

Lemma for_enum_collect {W X : Type} (prim : nat -> W -> res X) (w : W)
  (e : exn) :
  forall (xs : list X) (fuel i : nat) (acc : list X),
    (forall j x, nth_error xs j = Some x -> prim (i + j) w = Ok x) ->
    prim (i + length xs) w = Raise e ->
    length xs < fuel ->
    for_enum fuel prim collect i acc w
    = Some (((acc ++ xs)%list,
             if isinstance_WindowsError e then Ok tt else Raise e), w).
Proof.
  induction xs as [|x xs IH]; intros fuel i acc Hok Hend Hfuel;
    destruct fuel as [|fuel]; try (simpl in Hfuel; lia).
  - simpl in *. rewrite Nat.add_0_r in Hend. rewrite Hend, app_nil_r.
    destruct (isinstance_WindowsError e); reflexivity.
  - cbn [for_enum]. rewrite <- (Nat.add_0_r i) at 1.
    rewrite (Hok 0 x eq_refl). unfold collect at 1.
    rewrite (IH fuel (S i) (acc ++ [x])%list).
    + now rewrite <- app_assoc.
    + intros j y Hj. replace (S i + j) with (i + S j) by lia. now apply Hok.
    + simpl in Hend. now replace (S i + length xs) with (i + S (length xs)) by lia.
    + simpl in Hfuel. lia.
Qed.

(** C6, as the code has it: when the primitive returns the entries of a
    list at the indexes below its length and fails at that index, the
    enumeration gives these entries, and ends silently when the failure is a
    [WindowsError] of any kind (no more items, or access denied, or invalid
    handle); only a failure that is not a [WindowsError] goes on to the
    caller. *)
Theorem enum_stops_at_any_WindowsError :
  forall (W : Type) (api : Winreg W) (self : RegKey) (h : HKEY) (w : W)
         (names : list string) (vals : list (string * pydata * Z))
         (ek ev : exn) (fuel : nat),
    _key self = Some h ->
    (forall j x, nth_error names j = Some x -> EnumKey api h j w = Ok x) ->
    EnumKey api h (length names) w = Raise ek ->
    (forall j x, nth_error vals j = Some x -> EnumValue api h j w = Ok x) ->
    EnumValue api h (length vals) w = Raise ev ->
    length names < fuel -> length vals < fuel ->
    enum_keys api fuel self w
    = Some ((names, if isinstance_WindowsError ek then Ok tt else Raise ek), w)
    /\ enum_values api fuel self w
       = Some ((vals, if isinstance_WindowsError ev then Ok tt else Raise ev),
               w).
Proof.
  intros W api self h w names vals ek ev fuel Hk Hn He Hv Hve Hf1 Hf2.
  unfold enum_keys, enum_values, for_enum_keys, for_enum_values.
  rewrite Hk. split.
  - now rewrite (for_enum_collect _ w ek names fuel 0 []).
  - now rewrite (for_enum_collect _ w ev vals fuel 0 []).
Qed.

(** C6 fails as stated: when listing is refused with "access denied"
    after the first value (or before the first subkey), the enumeration ends
    as if the key had no more entries. *)
Lemma enum_swallows_access_denied :
  let self := Examples.entered (Examples.example_handle false) in
  let w := Examples.entered_world (Examples.example_handle false) in
  EnumValue (Registry.winreg_denied 1) 0 1 w
  = Raise (WindowsError Registry.ERROR_ACCESS_DENIED)
  /\ enum_values (Registry.winreg_denied 1) 5 self w
     = Some (([("A", PInt 1, Registry.REG_DWORD)], Ok tt), w)
  /\ EnumKey (Registry.winreg_denied 0) 0 0 w
     = Raise (WindowsError Registry.ERROR_ACCESS_DENIED)
  /\ enum_keys (Registry.winreg_denied 0) 5 self w = Some (([], Ok tt), w).
Proof. repeat split. Qed.

Lemma enum_stops_at_any_WindowsError_witness :
  let self := Examples.entered (Examples.example_handle false) in
  let w := Examples.entered_world (Examples.example_handle false) in
  enum_keys Registry.winreg 3 self w = Some ((["C"], Ok tt), w)
  /\ enum_values Registry.winreg 3 self w
     = Some (([("A", PInt 1, Registry.REG_DWORD);
               ("B", PStr "x", Registry.REG_SZ)], Ok tt), w).
Proof.
  apply (enum_stops_at_any_WindowsError Registry.World Registry.winreg
           (Examples.entered (Examples.example_handle false)) 0 _
           ["C"] [("A", PInt 1, Registry.REG_DWORD);
                  ("B", PStr "x", Registry.REG_SZ)]
           (WindowsError Registry.ERROR_NO_MORE_ITEMS)
           (WindowsError Registry.ERROR_NO_MORE_ITEMS) 3).
  - reflexivity.
  - intros [|[|j]] x H; simpl in H; try discriminate.
    injection H as <-. reflexivity.
  - reflexivity.
  - intros [|[|[|j]]] x H; simpl in H; try discriminate;
      injection H as <-; reflexivity.
  - reflexivity.
  - simpl. lia.
  - simpl. lia.
Defined.

(** ** Flattening to a mapping *)

(** C2 on the spec's example, with any fuel from 4 on: [to_dict()] gives
    [{A: 1, B: "x", C: {D: 2}}]; [to_dict(keep_type=True)] gives [RegValue]
    objects for [A] and [B] only, the nested leaf [D] is the raw [2], since
    the recursive call is [key.to_dict()]; the child handle is derived with
    [deep=False] and is closed again: the handle table ends as it began. *)
Theorem to_dict_example :
  forall n : nat,
    let self := Examples.entered (Examples.example_handle false) in
    let w := Examples.entered_world (Examples.example_handle false) in
    (exists w',
        to_dict Registry.winreg (4 + n) self false w
        = Some (Ok [("A", ORaw (PInt 1)); ("B", ORaw (PStr "x"));
                    ("C", ODict [("D", ORaw (PInt 2))])], w')
        /\ Registry.handles w' = Registry.handles w)
    /\ (exists w',
           to_dict Registry.winreg (4 + n) self true w
           = Some (Ok [("A", OValue {| name := "A"; data := PInt 1;
                                       type := Registry.REG_DWORD |});
                       ("B", OValue {| name := "B"; data := PStr "x";
                                       type := Registry.REG_SZ |});
                       ("C", ODict [("D", ORaw (PInt 2))])], w')
           /\ Registry.handles w' = Registry.handles w)
    /\ get_sub_key Registry.winreg self "C" (Some false)
       = Ok (TreeSpec.child_handle "HKEY_CURRENT_USER" HKEY_CURRENT_USER
               false ["Example"] "C").
Proof.
  intros n. cbn zeta. repeat split; eexists; split; reflexivity.
Qed.

(** ** Paths of derived handles *)

Section ChildPaths.
Import PyStr NtPath Registry TreeSpec.

Lemma char_in_seps_is (o : option ascii) :
  char_in_seps o = char_is o sep || char_is o altsep.
Proof. destruct o; reflexivity. Qed.

Lemma mem_false_head (c : ascii) (s : string) :
  mem c s = false -> char_is (head s) c = false.
Proof.
  destruct s as [|a s]; [reflexivity|]. simpl.
  intros H. now apply orb_false_elim in H as [-> _].
Qed.

Lemma mem_false_last (c : ascii) (s : string) :
  mem c s = false -> char_is (last s) c = false.
Proof.
  induction s as [|a s IH]; [reflexivity|]. simpl. intros H.
  apply orb_false_elim in H as [Ha Hs]. destruct s; [exact Ha|].
  apply (IH Hs).
Qed.

Lemma plain_name_parts (n : string) :
  plain_name n = true ->
  nonempty n = true /\ mem sep n = false /\ mem altsep n = false
  /\ char_is (String.get 1 n) colon = false.
Proof.
  unfold plain_name. intros H.
  apply andb_prop in H as [H H4]. apply andb_prop in H as [H H3].
  apply andb_prop in H as [H1 H2].
  apply negb_true_iff in H2, H3, H4. auto.
Qed.

Lemma plain_name_segment (n : string) :
  plain_name n = true -> plain_segment n = true.
Proof.
  intros H. destruct (plain_name_parts n H) as (H1 & H2 & H3 & H4).
  unfold plain_segment. rewrite H1, H4, !char_in_seps_is.
  rewrite (mem_false_head _ _ H2), (mem_false_head _ _ H3).
  now rewrite (mem_false_last _ _ H2), (mem_false_last _ _ H3).
Qed.

Lemma head_app (a b : string) : nonempty a = true -> head (a ++ b) = head a.
Proof. destruct a; [discriminate|reflexivity]. Qed.

Lemma last_prefixed (l : list string) : forall s,
  plain_segment s = true -> forallb plain_segment l = true ->
  char_in_seps (last (s ++ prefixed l)) = false.
Proof.
  induction l as [|t l IH]; intros s Hs Hl.
  - simpl. rewrite app_empty_r. unfold plain_segment in Hs.
    apply andb_prop in Hs as [_ Hs]. now apply negb_true_iff in Hs.
  - simpl in Hl. apply andb_prop in Hl as [Ht Hl].
    change (prefixed (t :: l)) with (String sep EmptyString ++ t ++ prefixed l).
    rewrite <- app_assoc_s, last_app; [now apply IH|].
    apply andb_prop in Ht as [Ht _]. apply andb_prop in Ht as [Ht _].
    apply andb_prop in Ht as [Ht _]. destruct t; [discriminate|reflexivity].
Qed.

Lemma plain_segment_join (s : string) (l : list string) :
  forallb plain_segment (s :: l) = true ->
  plain_segment (join_with sep (s :: l)) = true.
Proof.
  intros H. assert (H' := H). simpl in H. apply andb_prop in H as [Hs Hl].
  rewrite join_with_prefixed. unfold plain_segment at 1.
  rewrite (last_prefixed l s Hs Hl).
  unfold plain_segment in Hs.
  apply andb_prop in Hs as [Hs _]. apply andb_prop in Hs as [Hs Hc].
  apply andb_prop in Hs as [Hn Hh].
  rewrite (head_app _ _ Hn), Hh.
  destruct s as [|a [|b s]]; try discriminate.
  - destruct l; reflexivity.
  - cbn in Hc |- *. now rewrite Hc.
Qed.

Lemma prefixed_app (l1 l2 : list string) :
  prefixed (l1 ++ l2) = prefixed l1 ++ prefixed l2.
Proof.
  induction l1 as [|s l1 IH]; [reflexivity|].
  simpl. rewrite IH. now rewrite app_assoc_s.
Qed.

Lemma join_with_snoc (s : string) (l : list string) (n : string) :
  join_with sep ((s :: l) ++ [n]) = join_with sep (s :: l) ++ String sep n.
Proof.
  change ((s :: l) ++ [n])%list with (s :: (l ++ [n]))%list.
  rewrite !join_with_prefixed, prefixed_app, app_assoc_s.
  simpl. now rewrite app_empty_r.
Qed.

(** the path [get_sub_key] gives to the handle of a subkey *)
Lemma join_child (s : string) (l : list string) (n : string) :
  forallb plain_name (s :: l) = true -> plain_name n = true ->
  join (join_with sep (s :: l)) [n] = join_with sep ((s :: l) ++ [n]).
Proof.
  intros Hl Hn. rewrite join_with_snoc.
  assert (Hseg : forallb plain_segment (s :: l) = true).
  { apply forallb_forall. intros x Hx. apply plain_name_segment.
    rewrite forallb_forall in Hl. auto. }
  rewrite join_plain.
  - reflexivity.
  - cbn [forallb]. rewrite (plain_segment_join _ _ Hseg).
    now rewrite (plain_name_segment n Hn).
Qed.

Lemma split_app_sep (a b : string) :
  mem sep a = false -> split sep (a ++ String sep b) = a :: split sep b.
Proof.
  induction a as [|c a IH]; intros H; [reflexivity|].
  simpl in H. apply orb_false_elim in H as [Hc Ha].
  simpl. now rewrite Hc, (IH Ha).
Qed.

Lemma split_join (s : string) (l : list string) :
  forallb plain_name (s :: l) = true ->
  split sep (join_with sep (s :: l)) = s :: l.
Proof.
  revert s. induction l as [|t l IH]; intros s H.
  - cbn in H |- *. rewrite andb_true_r in H.
    destruct (plain_name_parts s H) as (_ & H2 & _). now apply split_without.
  - cbn [forallb] in H. apply andb_prop in H as [Hs Hl].
    destruct (plain_name_parts s Hs) as (_ & H2 & _).
    rewrite join_with_prefixed.
    change (prefixed (t :: l)) with (String sep (t ++ prefixed l)).
    rewrite (split_app_sep _ _ H2), <- join_with_prefixed. now rewrite IH.
Qed.

Lemma descend_app (a b : list string) : forall k,
  descend (a ++ b) k
  = match descend a k with Some k' => descend b k' | None => None end.
Proof.
  induction a as [|s a IH]; intros k; [reflexivity|].
  simpl. destruct (nonempty s); [|apply IH].
  destruct (assoc String.eqb (subkeys_of k) s); [apply IH|reflexivity].
Qed.

Lemma resolve_child (w : World) (hkey : Z) (s : string) (l : list string)
  (n : string) (k : Key) :
  forallb plain_name (s :: l) = true -> plain_name n = true ->
  resolve w hkey (join_with sep (s :: l)) = Some k ->
  resolve w hkey (join_with sep ((s :: l) ++ [n]))
  = assoc String.eqb (subkeys_of k) n.
Proof.
  unfold resolve. intros Hl Hn.
  destruct (assoc Z.eqb (hives w) hkey) as [root|]; [|discriminate].
  assert (Hall : forallb plain_name ((s :: l) ++ [n]) = true).
  { rewrite forallb_app, Hl. cbn. now rewrite Hn. }
  change ((s :: l) ++ [n])%list with (s :: (l ++ [n]))%list in *.
  rewrite (split_join _ _ Hl), (split_join _ _ Hall).
  change (s :: (l ++ [n]))%list with ((s :: l) ++ [n])%list.
  rewrite descend_app. intros ->. simpl.
  destruct (plain_name_parts n Hn) as (-> & _).
  now destruct (assoc String.eqb (subkeys_of k) n).
Qed.

Lemma tail_of_app (a n : string) :
  mem sep n = false -> mem altsep n = false ->
  tail_of (a ++ String sep n) = n.
Proof.
  intros H1 H2. induction a as [|c a IH].
  - simpl. now rewrite H1, H2.
  - simpl. replace (mem sep (a ++ String sep n)) with true; [exact IH|].
    clear. induction a as [|c a IH]; simpl; [reflexivity|].
    rewrite <- IH. now rewrite orb_true_r.
Qed.

(** the name of the handle of a subkey is the subkey's name *)
Lemma child_name (root_name : string) (hkey : Z) (deep : bool)
  (s : string) (l : list string) (n : string) (o : option HKEY) :
  forallb plain_name (s :: l) = true -> plain_name n = true ->
  key_name (set_key (child_handle root_name hkey deep (s :: l) n) o) = n.
Proof.
  intros Hl Hn. unfold key_name, split_tail. cbn [set_key _path child_handle].
  assert (Hall : forallb plain_segment (s :: (l ++ [n])) = true).
  { apply forallb_forall. intros x Hx. apply plain_name_segment.
    change (s :: (l ++ [n]))%list with ((s :: l) ++ [n])%list in Hx.
    apply in_app_or in Hx as [Hx|[<-|[]]]; [|exact Hn].
    rewrite forallb_forall in Hl. auto. }
  change ((s :: l) ++ [n])%list with (s :: (l ++ [n]))%list.
  rewrite (splitdrive_plain _ (plain_segment_join _ _ Hall)). cbn [snd].
  change (s :: (l ++ [n]))%list with ((s :: l) ++ [n])%list.
  rewrite join_with_snoc.
  destruct (plain_name_parts n Hn) as (_ & H2 & H3 & _).
  now apply tail_of_app.
Qed.

End ChildPaths.

(** ** Loops over an enumeration *)

Lemma skipn_nth_error {X : Type} (xs : list X) : forall i x,
  nth_error xs i = Some x -> skipn i xs = x :: skipn (S i) xs.
Proof.
  induction xs as [|y xs IH]; intros [|i] x H; try discriminate.
  - now injection H as ->.
  - apply (IH i x H).
Qed.

Lemma skipn_nth_error_None {X : Type} (xs : list X) : forall i,
  nth_error xs i = None -> skipn i xs = [].
Proof.
  induction xs as [|y xs IH]; intros [|i] H; try reflexivity; try discriminate.
  apply (IH i H).
Qed.

(** A loop over an enumeration whose primitive lists [xs] and then fails
    with a [WindowsError], and whose body turns the state [s] into
    [step s x] while it keeps the invariant of the service: with fuel for
    one turn more than entries are left, the loop folds [step] over them. *)
Lemma for_enum_fold {W X S : Type} (prim : nat -> W -> res X)
  (body : X -> S -> W -> @run W S) (Inv : W -> Prop) (xs : list X)
  (step : S -> X -> S) (e : exn) :
  isinstance_WindowsError e = true ->
  (forall w j, Inv w ->
     prim j w = match nth_error xs j with Some x => Ok x | None => Raise e end) ->
  (forall j x s w, nth_error xs j = Some x -> Inv w ->
     exists w', body x s w = Some ((step s x, Ok tt), w') /\ Inv w') ->
  forall fuel i s w,
    Inv w -> length xs - i < fuel ->
    exists w',
      for_enum fuel prim body i s w
      = Some ((fold_left step (skipn i xs) s, Ok tt), w') /\ Inv w'.
Proof.
  intros He Hprim Hbody. induction fuel as [|fuel IH]; intros i s w Hw Hf.
  - lia.
  - cbn [for_enum]. rewrite (Hprim w i Hw).
    destruct (nth_error xs i) as [x|] eqn:Hx.
    + destruct (Hbody i x s w Hx Hw) as (w' & -> & Hw').
      rewrite (skipn_nth_error xs i x Hx). cbn [fold_left].
      apply IH; [exact Hw'|].
      assert (i < length xs) by (apply nth_error_Some; congruence). lia.
    + rewrite He, (skipn_nth_error_None xs i Hx). now exists w.
Qed.

(** ** Handles on a registry tree *)

Section TreeHandles.
Import PyStr NtPath Registry TreeSpec.

Lemma same_handles_refl (w : World) : same_handles w w.
Proof. repeat split. lia. Qed.

Lemma same_handles_trans (w1 w2 w3 : World) :
  same_handles w1 w2 -> same_handles w2 w3 -> same_handles w1 w3.
Proof.
  intros (A1 & B1 & C1) (A2 & B2 & C2). repeat split; try congruence. lia.
Qed.

Lemma resolve_same (w w' : World) (hkey : Z) (path : string) :
  hives w' = hives w -> resolve w' hkey path = resolve w hkey path.
Proof. unfold resolve. now intros ->. Qed.

Lemma opened_at_same (w w' : World) self s l k c :
  same_handles w w' -> opened_at w self s l k c -> opened_at w' self s l k c.
Proof.
  intros (A & B & C) (H1 & H2 & H3 & (h & H4 & H5) & H6 & H7).
  repeat split; auto.
  - exists h. now rewrite B.
  - now rewrite (resolve_same w w' _ _ A).
  - intros h' k' Hin. rewrite B in Hin. specialize (H7 h' k' Hin). lia.
Qed.

Lemma filter_fresh (l : list (HKEY * Key)) (nh : HKEY) :
  (forall h k, In (h, k) l -> h < nh) ->
  filter (fun e => negb (Nat.eqb (fst e) nh)) l = l.
Proof.
  induction l as [|[h k] l IH]; intros H; [reflexivity|].
  simpl. assert (h < nh) by (apply (H h k); now left).
  destruct (Nat.eqb_spec h nh); [lia|]. simpl. f_equal.
  apply IH. intros h' k' Hin. apply (H h' k'). now right.
Qed.

Lemma get_sub_key_child self h s l n c (deep : option bool) :
  _key self = Some h ->
  _path self = join_with sep (s :: l) ->
  HKEY_MAP_get HKEY_MAP (_hkey self) = Some c ->
  forallb plain_name (s :: l) = true -> plain_name n = true ->
  get_sub_key winreg self n deep
  = Ok (child_handle c (_hkey self)
          (match deep with None => _deep self | Some d => d end) (s :: l) n).
Proof.
  intros Hk Hp Hc Hl Hn. unfold get_sub_key, __init__.
  now rewrite Hk, Hc, Hp, (join_child s l n Hl Hn).
Qed.

(** [with key:] around a body that leaves the handles as they are, for
    the handle of an existing subkey: the subkey is opened under a new
    native handle, and closed again *)
Lemma with_key_child {S : Type} (body : RegKey -> S -> World -> @run World S)
  (key : RegKey) (sub : Key) (w : World) (s s' : S) :
  resolve w (_hkey key) (_path key) = Some sub ->
  handles_fresh w ->
  (exists w2,
      body (set_key key (Some (next_handle w))) s (after_open w sub)
      = Some ((s', Ok tt), w2)
      /\ same_handles (after_open w sub) w2) ->
  exists w3,
    with_key winreg key body s w = Some ((s', Ok tt), w3)
    /\ same_handles w w3.
Proof.
  intros Hres Hfresh (w2 & Hbody & A & B & C).
  unfold with_key, __enter__. cbn [OpenKey winreg]. unfold open_key.
  rewrite Hres. fold (after_open w sub). unfold set_key in *. rewrite Hbody.
  eexists. split; [reflexivity|].
  unfold __exit__. cbn [snd CloseKey winreg _key close_key hives handles
                          next_handle same_handles].
  rewrite A, B. cbn [after_open hives handles next_handle] in *.
  unfold same_handles. cbn [hives handles next_handle].
  split; [reflexivity|]. split; [|lia].
  cbn [filter fst]. rewrite Nat.eqb_refl. cbn [negb].
  now apply filter_fresh.
Qed.

Lemma fresh_after_open (w : World) (k : Key) :
  handles_fresh w -> handles_fresh (after_open w k).
Proof.
  intros H h k' [E|Hin]; cbn.
  - injection E as <- _. lia.
  - specialize (H h k' Hin). lia.
Qed.

Lemma assoc_distinct (ks : list (string * Key)) : forall j n sub,
  distinct (map fst ks) = true ->
  nth_error ks j = Some (n, sub) ->
  assoc String.eqb ks n = Some sub.
Proof.
  induction ks as [|[n' k'] ks IH]; intros [|j] n sub Hd Hn;
    try discriminate; simpl in Hd, Hn;
    apply andb_prop in Hd as [Hnot Hd].
  - injection Hn as -> ->. simpl. now rewrite String.eqb_refl.
  - simpl. destruct (String.eqb_spec n' n) as [->|]; [|now apply (IH j)].
    apply negb_true_iff in Hnot.
    assert (existsb (String.eqb n) (map fst ks) = true); [|congruence].
    apply existsb_exists. exists n. split; [|apply String.eqb_refl].
    apply nth_error_In in Hn. now apply (in_map fst) in Hn.
Qed.

End TreeHandles.

Section TreeTraversal.
Import PyStr NtPath Registry TreeSpec.

Lemma well_named_parts vs ks :
  well_named (MkKey vs ks) = true ->
  forallb plain_name (map fst ks) = true
  /\ distinct (map fst ks) = true
  /\ forallb (fun e => well_named (snd e)) ks = true.
Proof.
  simpl. intros H. apply andb_prop in H as [H H3].
  apply andb_prop in H as [H1 H2]. auto.
Qed.

Lemma size_subkey (ks : list (string * Key)) (e : string * Key) :
  In e ks -> size (snd e) <= fold_right (fun e n => size (snd e) + n) 0 ks.
Proof.
  induction ks as [|e' ks IH]; simpl; [intros []|intros [<-|Hin]]; [lia|].
  specialize (IH Hin). lia.
Qed.

(** what holds of a subkey the enumeration has listed, and of its handle
    once [with key:] has opened it *)
Lemma opened_child (w : World) self s l k c j n sub (deep : bool) :
  opened_at w self s l k c ->
  well_named k = true ->
  nth_error (subkeys_of k) j = Some (n, sub) ->
  plain_name n = true
  /\ well_named sub = true
  /\ size sub < size k
  /\ assoc String.eqb (subkeys_of k) n = Some sub
  /\ resolve w (_hkey self) (join_with sep ((s :: l) ++ [n])) = Some sub
  /\ opened_at (after_open w sub)
       (set_key (child_handle c (_hkey self) deep (s :: l) n)
          (Some (next_handle w)))
       s (l ++ [n]) sub c.
Proof.
  intros (Hl & Hp & Hc & (h & Hk & Hh) & Hres & Hfresh) Hwn Hnth.
  destruct k as [vs ks]. cbn [subkeys_of] in *.
  destruct (well_named_parts vs ks Hwn) as (Hnames & Hdist & Hsubs).
  assert (Hin := nth_error_In _ _ Hnth).
  assert (Hn : plain_name n = true).
  { rewrite forallb_forall in Hnames. apply Hnames.
    now apply (in_map fst) in Hin. }
  assert (Hsub : well_named sub = true).
  { rewrite forallb_forall in Hsubs. apply (Hsubs _ Hin). }
  assert (Hassoc := assoc_distinct ks j n sub Hdist Hnth).
  assert (Hres' : resolve w (_hkey self) (join_with sep ((s :: l) ++ [n]))
                  = Some sub).
  { rewrite Hp in Hres. now rewrite (resolve_child w _ s l n _ Hl Hn Hres). }
  repeat split; auto.
  - pose proof (size_subkey ks (n, sub) Hin) as Hs. simpl in Hs |- *. lia.
  - change (s :: (l ++ [n]))%list with ((s :: l) ++ [n])%list.
    rewrite forallb_app, Hl. cbn. now rewrite Hn.
  - exists (next_handle w). split; [reflexivity|].
    cbn. now rewrite Nat.eqb_refl.
  - now apply fresh_after_open.
Qed.

Lemma to_dict_S (fuel : nat) (self : RegKey) (keep_type : bool) (w : World) :
  to_dict winreg (S fuel) self keep_type w
  = match
      and_then
        (for_enum_values winreg fuel self
           (fun value_tuple res w =>
              Some ((value_entry keep_type res value_tuple, Ok tt), w))
           [] w)
        (for_enum_keys winreg fuel self
           (fun key_path res w =>
              match get_sub_key winreg self key_path (Some false) with
              | Raise e => Some ((res, Raise e), w)
              | Ok key =>
                  with_key winreg key
                    (fun key1 res w =>
                       match to_dict winreg fuel key1 false w with
                       | None => None
                       | Some (Raise e, w') => Some ((res, Raise e), w')
                       | Some (Ok d, w') =>
                           Some ((dict_set res (key_name key1) (ODict d),
                                  Ok tt), w')
                       end)
                    res w
              end))
    with
    | None => None
    | Some ((_, Raise e), w') => Some (Raise e, w')
    | Some ((res, Ok _), w') => Some (Ok res, w')
    end.
Proof. reflexivity. Qed.

Lemma enum_value_at (w : World) (h : HKEY) (k : Key) (j : nat) :
  assoc Nat.eqb (handles w) h = Some k ->
  EnumValue winreg h j w
  = match nth_error (values_of k) j with
    | Some x => Ok x
    | None => Raise (WindowsError ERROR_NO_MORE_ITEMS)
    end.
Proof. intros H. cbn. unfold enum_value. now rewrite H. Qed.

Lemma enum_key_at (w : World) (h : HKEY) (k : Key) (j : nat) :
  assoc Nat.eqb (handles w) h = Some k ->
  EnumKey winreg h j w
  = match nth_error (map fst (subkeys_of k)) j with
    | Some x => Ok x
    | None => Raise (WindowsError ERROR_NO_MORE_ITEMS)
    end.
Proof.
  intros H. cbn. unfold enum_key. rewrite H, nth_error_map.
  now destruct (nth_error (subkeys_of k) j) as [[n sub]|].
Qed.

Lemma fold_subkey_entry (ks all : list (string * Key)) : forall d,
  (forall e, In e ks -> assoc String.eqb all (fst e) = Some (snd e)) ->
  fold_left (subkey_entry all) (map fst ks) d
  = fold_left
      (fun d e => dict_set d (fst e) (ODict (mapping_of false (snd e)))) ks d.
Proof.
  induction ks as [|e ks IH]; intros d H; [reflexivity|].
  simpl. unfold subkey_entry at 2. rewrite (H e (or_introl eq_refl)).
  apply IH. intros e' He'. apply H. now right.
Qed.

End TreeTraversal.

Section TreeMapping.
Import PyStr NtPath Registry TreeSpec.

(** On a well-named tree, with fuel for its size, [to_dict] returns the
    nested mapping of the tree and leaves the handle table as it found it. *)
Lemma to_dict_tree : forall (fuel : nat) (k : Key) (keep_type : bool)
    (self : RegKey) (s : string) (l : list string) (c : string) (w : World),
  size k <= fuel ->
  well_named k = true ->
  opened_at w self s l k c ->
  exists w',
    to_dict winreg fuel self keep_type w = Some (Ok (mapping_of keep_type k), w')
    /\ same_handles w w'.
Proof.
  induction fuel as [|fuel IH]; intros k kt self s l c w Hsize Hwn Hopen.
  - destruct k; simpl in Hsize; lia.
  - assert (Hopen' := Hopen).
    destruct Hopen' as (Hl & Hp & Hc & (h & Hk & Hh) & Hres & Hfresh).
    rewrite to_dict_S. unfold for_enum_values, for_enum_keys. rewrite Hk.
    destruct k as [vs ks]. cbn [size] in Hsize.
    (* the values *)
    match goal with
    | |- context [for_enum fuel ?prim ?body 0 [] w] =>
        destruct (for_enum_fold prim body (fun w' => w' = w) vs
                    (value_entry kt) (WindowsError ERROR_NO_MORE_ITEMS)
                    eq_refl) with (fuel := fuel) (i := 0) (s := @nil (string * pyobj)) (w := w)
          as (w1 & -> & ->)
    end.
    + intros w' j ->. apply (enum_value_at w h _ j Hh).
    + intros j x d w' _ ->. now exists w.
    + reflexivity.
    + lia.
    + cbn [and_then skipn].
      (* the subkeys *)
      match goal with
      | |- context [for_enum fuel ?prim ?body 0 ?d w] =>
          destruct (for_enum_fold prim body (same_handles w) (map fst ks)
                      (subkey_entry ks) (WindowsError ERROR_NO_MORE_ITEMS)
                      eq_refl) with (fuel := fuel) (i := 0) (s := d) (w := w)
            as (w2 & -> & Hw2)
      end.
      * intros w' j (_ & Hhandles & _).
        apply (enum_key_at w' h (MkKey vs ks) j). now rewrite Hhandles.
      * intros j n d w' Hj Hw'.
        rewrite nth_error_map in Hj.
        destruct (nth_error ks j) as [[n' sub]|] eqn:Hnth; [|discriminate].
        injection Hj as ->.
        pose proof (opened_at_same w w' _ _ _ _ _ Hw' Hopen) as Hopen'.
        destruct (opened_child w' self s l (MkKey vs ks) c j n sub false
                    Hopen' Hwn Hnth)
          as (Hn & Hsub & Hlt & Hassoc & Hres' & Hchild).
        rewrite (get_sub_key_child self h s l n c (Some false) Hk Hp Hc Hl Hn).
        destruct Hopen' as (_ & _ & _ & _ & _ & Hfresh').
        unfold subkey_entry. cbn [subkeys_of] in Hassoc. rewrite Hassoc.
        edestruct (with_key_child (S := dict)) as (w3 & -> & Hw3);
          [exact Hres' | exact Hfresh' | |].
        -- assert (Hfuel : size sub <= fuel) by (cbn [size] in Hlt; lia).
           destruct (IH sub false _ s (l ++ [n])%list c (after_open w' sub)
                       Hfuel Hsub Hchild) as (w2 & -> & Hw2).
           rewrite (child_name c (_hkey self) false s l n _ Hl Hn).
           exists w2. split; [reflexivity | exact Hw2].
        -- exists w3. split; [reflexivity|].
           now apply (same_handles_trans w w' w3).
      * apply same_handles_refl.
      * rewrite length_map. lia.
      * cbn [skipn]. exists w2. split; [|exact Hw2].
        cbn [mapping_of]. rewrite (fold_subkey_entry ks ks); [reflexivity|].
        intros [n sub] Hin.
        apply In_nth_error in Hin as [j Hj].
        destruct (well_named_parts vs ks Hwn) as (_ & Hdist & _).
        apply (assoc_distinct ks j n sub Hdist Hj).
Qed.

End TreeMapping.

Section Collision.
Import PyStr NtPath Registry TreeSpec.

Lemma dict_get_set_same (d : dict) (k : string) (v : pyobj) :
  dict_get (dict_set d k v) k = Some v.
Proof.
  induction d as [|[k' v'] d IH]; simpl.
  - now rewrite String.eqb_refl.
  - destruct (String.eqb k' k) eqn:E; simpl; now rewrite E.
Qed.

Lemma dict_get_set_other (d : dict) (k k' : string) (v : pyobj) :
  k <> k' -> dict_get (dict_set d k v) k' = dict_get d k'.
Proof.
  intros Hne. induction d as [|[k0 v0] d IH]; simpl.
  - destruct (String.eqb_spec k k'); [contradiction|reflexivity].
  - destruct (String.eqb_spec k0 k) as [->|]; simpl.
    + destruct (String.eqb_spec k k'); [contradiction|reflexivity].
    + now rewrite IH.
Qed.

Lemma subkeys_keep_entry (X : string) (ks : list (string * Key)) : forall d,
  existsb (String.eqb X) (map fst ks) = false ->
  dict_get
    (fold_left
       (fun d e => dict_set d (fst e) (ODict (mapping_of false (snd e)))) ks d)
    X = dict_get d X.
Proof.
  induction ks as [|[n k] ks IH]; intros d H; [reflexivity|].
  simpl in H. apply orb_false_elim in H as [Hn Hks].
  cbn [fold_left fst snd]. rewrite (IH _ Hks).
  apply dict_get_set_other. intros ->. now rewrite String.eqb_refl in Hn.
Qed.

Lemma subkey_entry_wins (X : string) (sub : Key) (ks : list (string * Key)) :
  forall d,
    distinct (map fst ks) = true ->
    assoc String.eqb ks X = Some sub ->
    dict_get
      (fold_left
         (fun d e => dict_set d (fst e) (ODict (mapping_of false (snd e))))
         ks d)
      X = Some (ODict (mapping_of false sub)).
Proof.
  induction ks as [|[n k] ks IH]; intros d Hd Ha; [discriminate|].
  simpl in Hd, Ha. apply andb_prop in Hd as [Hnot Hd].
  cbn [fold_left fst snd].
  destruct (String.eqb_spec n X) as [->|Hne].
  - injection Ha as ->. apply negb_true_iff in Hnot.
    rewrite (subkeys_keep_entry X ks _ Hnot). apply dict_get_set_same.
  - now apply IH.
Qed.

Lemma value_entry_raw (X : string) (vs : list (string * pydata * Z)) :
  forall d,
    (exists r, dict_get d X = Some (ORaw r))
    \/ (exists v, first_value vs X = Some v) ->
    exists r, dict_get (fold_left (value_entry false) vs d) X = Some (ORaw r).
Proof.
  induction vs as [|[[n dat] t] vs IH]; intros d H.
  - destruct H as [H|[v Hv]]; [exact H|discriminate].
  - cbn [fold_left]. apply IH. unfold value_entry. cbn [RegValue_of name data].
    destruct (String.eqb_spec n X) as [->|Hne].
    + left. exists dat. apply dict_get_set_same.
    + rewrite (dict_get_set_other _ _ _ _ Hne).
      destruct H as [H|[v Hv]]; [now left|right].
      unfold first_value in Hv |- *. cbn [List.find fst] in Hv.
      destruct (String.eqb_spec n X); [contradiction|]. now exists v.
Qed.

End Collision.

(** X16: on a well-named tree of the registry service (the subkeys of every
    key have plain, distinct names), with fuel for its size, for an open handle
    on a key that has a value named [X] and a subkey named [X], [to_dict]
    returns a mapping whose entry [X] is the subkey's nested mapping: the
    values alone leave raw data under [X], and the subkey's entry, written
    afterwards, replaces it. *)
Theorem to_dict_subkey_overwrites_value :
  forall (fuel : nat) (k : Registry.Key) (self : RegKey) (s : string)
         (l : list string) (c : string) (w : Registry.World) (X : string)
         (v : pydata * Z) (sub : Registry.Key),
    TreeSpec.size k <= fuel ->
    TreeSpec.well_named k = true ->
    TreeSpec.opened_at w self s l k c ->
    Registry.first_value (Registry.values_of k) X = Some v ->
    Registry.assoc String.eqb (Registry.subkeys_of k) X = Some sub ->
    exists res w',
      to_dict Registry.winreg fuel self false w = Some (Ok res, w')
      /\ dict_get res X = Some (ODict (TreeSpec.mapping_of false sub))
      /\ (exists r,
             dict_get
               (fold_left (TreeSpec.value_entry false) (Registry.values_of k)
                  []) X = Some (ORaw r))
      /\ TreeSpec.same_handles w w'.
Proof.
  intros fuel k self s l c w X v sub Hsize Hwn Hopen Hv Hsub.
  destruct (to_dict_tree fuel k false self s l c w Hsize Hwn Hopen)
    as (w' & Hrun & Hsame).
  exists (TreeSpec.mapping_of false k), w'. repeat split; try apply Hsame.
  - exact Hrun.
  - destruct k as [vs ks]. cbn [TreeSpec.mapping_of].
    destruct (well_named_parts vs ks Hwn) as (_ & Hdist & _).
    now apply subkey_entry_wins.
  - apply value_entry_raw. right. now exists v.
Qed.

Lemma opened_at_clash :
  TreeSpec.opened_at (Examples.entered_world Examples.clash_handle)
    (Examples.entered Examples.clash_handle) "Clash" [] Registry.clash_key
    "HKEY_CURRENT_USER".
Proof.
  repeat split; try reflexivity.
  - exists 0. split; reflexivity.
  - intros h k [E|[]]. injection E as <- _. cbn. lia.
Qed.

Lemma to_dict_subkey_overwrites_value_witness :
  exists res w',
    to_dict Registry.winreg 8 (Examples.entered Examples.clash_handle) false
      (Examples.entered_world Examples.clash_handle) = Some (Ok res, w')
    /\ dict_get res "X"
       = Some (ODict (TreeSpec.mapping_of false
                        (Registry.MkKey [("Y", PStr "y", Registry.REG_SZ)] [])))
    /\ (exists r,
           dict_get
             (fold_left (TreeSpec.value_entry false)
                (Registry.values_of Registry.clash_key) []) "X"
           = Some (ORaw r))
    /\ TreeSpec.same_handles (Examples.entered_world Examples.clash_handle) w'.
Proof.
  apply (to_dict_subkey_overwrites_value 8 Registry.clash_key _ "Clash" []
           "HKEY_CURRENT_USER" _ "X" (PInt 7, Registry.REG_DWORD)).
  - vm_compute. lia.
  - reflexivity.
  - exact opened_at_clash.
  - reflexivity.
  - reflexivity.
Defined.

(** ** Full iteration *)

Section TreeIteration.
Import PyStr NtPath Registry TreeSpec.

Lemma iter_S (fuel : nat) (self : RegKey) (acc : list item) (w : World) :
  __iter__ winreg (S fuel) self acc w
  = and_then
      (for_enum_values winreg fuel self
         (fun value_tuple acc w =>
            Some (((acc ++ [IValue (RegValue_of value_tuple)])%list, Ok tt), w))
         acc w)
      (for_enum_keys winreg fuel self
         (fun key_path acc w =>
            match get_sub_key winreg self key_path None with
            | Raise e => Some ((acc, Raise e), w)
            | Ok key =>
                let acc' := (acc ++ [IKey key])%list in
                if _deep self then
                  with_key winreg key (fun key1 => __iter__ winreg fuel key1)
                    acc' w
                else Some ((acc', Ok tt), w)
            end)).
Proof. reflexivity. Qed.

Lemma fold_snoc_map {A B : Type} (f : A -> B) (xs : list A) : forall acc,
  fold_left (fun acc x => (acc ++ [f x])%list) xs acc
  = (acc ++ map f xs)%list.
Proof.
  induction xs as [|x xs IH]; intros acc; simpl.
  - now rewrite app_nil_r.
  - rewrite IH, <- app_assoc. reflexivity.
Qed.

Lemma fold_subkey_items c hkey deep segs (ks all : list (string * Key)) :
  forall acc,
    (forall e, In e ks -> assoc String.eqb all (fst e) = Some (snd e)) ->
    fold_left (subkey_items c hkey deep segs all) (map fst ks) acc
    = (acc ++ flat_map
                (fun e =>
                   IKey (child_handle c hkey deep segs (fst e))
                   :: (if deep
                       then items_of c hkey deep (snd e) (segs ++ [fst e])
                       else []))
                ks)%list.
Proof.
  induction ks as [|e ks IH]; intros acc H.
  - simpl. now rewrite app_nil_r.
  - cbn [map fold_left flat_map]. unfold subkey_items at 2.
    rewrite (H e (or_introl eq_refl)).
    rewrite IH; [|intros e' He'; apply H; now right].
    rewrite <- app_assoc. reflexivity.
Qed.

(** On a well-named tree, with fuel for its size, [__iter__] yields the
    sequence of the tree after what was yielded before, and leaves the
    handle table as it found it. *)
Lemma iter_tree : forall (fuel : nat) (k : Key) (self : RegKey) (s : string)
    (l : list string) (c : string) (acc : list item) (w : World),
  size k <= fuel ->
  well_named k = true ->
  opened_at w self s l k c ->
  exists w',
    __iter__ winreg fuel self acc w
    = Some (((acc ++ items_of c (_hkey self) (_deep self) k (s :: l))%list,
             Ok tt), w')
    /\ same_handles w w'.
Proof.
  induction fuel as [|fuel IH]; intros k self s l c acc w Hsize Hwn Hopen.
  - destruct k; simpl in Hsize; lia.
  - assert (Hopen' := Hopen).
    destruct Hopen' as (Hl & Hp & Hc & (h & Hk & Hh) & Hres & Hfresh).
    rewrite iter_S. unfold for_enum_values, for_enum_keys. rewrite Hk.
    destruct k as [vs ks]. cbn [size] in Hsize.
    match goal with
    | |- context [for_enum fuel ?prim ?body 0 acc w] =>
        destruct (for_enum_fold prim body (fun w' => w' = w) vs
                    (fun acc x => (acc ++ [IValue (RegValue_of x)])%list)
                    (WindowsError ERROR_NO_MORE_ITEMS) eq_refl)
          with (fuel := fuel) (i := 0) (s := acc) (w := w)
          as (w1 & -> & ->)
    end.
    + intros w' j ->. apply (enum_value_at w h _ j Hh).
    + intros j x d w' _ ->. now exists w.
    + reflexivity.
    + lia.
    + cbn [and_then skipn].
      match goal with
      | |- context [for_enum fuel ?prim ?body 0 ?d w] =>
          destruct (for_enum_fold prim body (same_handles w) (map fst ks)
                      (subkey_items c (_hkey self) (_deep self) (s :: l) ks)
                      (WindowsError ERROR_NO_MORE_ITEMS) eq_refl)
            with (fuel := fuel) (i := 0) (s := d) (w := w)
            as (w2 & -> & Hw2)
      end.
      * intros w' j (_ & Hhandles & _).
        apply (enum_key_at w' h (MkKey vs ks) j). now rewrite Hhandles.
      * intros j n d w' Hj Hw'.
        rewrite nth_error_map in Hj.
        destruct (nth_error ks j) as [[n' sub]|] eqn:Hnth; [|discriminate].
        injection Hj as ->.
        pose proof (opened_at_same w w' _ _ _ _ _ Hw' Hopen) as Hopen'.
        destruct (opened_child w' self s l (MkKey vs ks) c j n sub
                    (_deep self) Hopen' Hwn Hnth)
          as (Hn & Hsub & Hlt & Hassoc & Hres' & Hchild).
        rewrite (get_sub_key_child self h s l n c None Hk Hp Hc Hl Hn).
        destruct Hopen' as (_ & _ & _ & _ & _ & Hfresh').
        unfold subkey_items. cbn [subkeys_of] in Hassoc. rewrite Hassoc.
        cbv zeta. destruct (_deep self) eqn:Hdeep.
        -- edestruct (with_key_child (S := list item)) as (w3 & -> & Hw3);
             [exact Hres' | exact Hfresh' | |].
           ++ assert (Hfuel : size sub <= fuel) by (cbn [size] in Hlt; lia).
              destruct (IH sub _ s (l ++ [n])%list c
                          (d ++ [IKey (child_handle c (_hkey self) true
                                         (s :: l) n)])%list
                          (after_open w' sub) Hfuel Hsub Hchild)
                as (w2 & -> & Hw2).
              exists w2. split; [reflexivity | exact Hw2].
           ++ exists w3. split; [|now apply (same_handles_trans w w' w3)].
              cbn [set_key _hkey _deep child_handle].
              rewrite <- app_assoc. reflexivity.
        -- exists w'. split; [reflexivity | exact Hw'].
      * apply same_handles_refl.
      * rewrite length_map. lia.
      * cbn [skipn]. exists w2. split; [|exact Hw2].
        cbn [items_of]. rewrite fold_snoc_map, (fold_subkey_items _ _ _ _ ks ks).
        -- now rewrite <- app_assoc.
        -- intros [n sub] Hin. apply In_nth_error in Hin as [j Hj].
           destruct (well_named_parts vs ks Hwn) as (_ & Hdist & _).
           apply (assoc_distinct ks j n sub Hdist Hj).
Qed.

End TreeIteration.

Section IterationFacts.
Import PyStr NtPath Registry TreeSpec.

Lemma unopened_items c hkey deep : forall (n : nat) (k : Key) segs,
  size k <= n -> forallb unopened (items_of c hkey deep k segs) = true.
Proof.
  induction n as [|n IH]; intros [vs ks] segs Hsize;
    [simpl in Hsize; lia|].
  cbn [items_of size] in *. rewrite forallb_app. apply andb_true_intro. split.
  - apply forallb_forall. intros it Hit.
    apply in_map_iff in Hit as (t & <- & _). reflexivity.
  - assert (Hks : forall e, In e ks -> size (snd e) <= n).
    { intros e He. pose proof (size_subkey ks e He). lia. }
    clear Hsize. induction ks as [|e ks IHks]; [reflexivity|].
    cbn [flat_map]. rewrite forallb_app. apply andb_true_intro. split.
    + cbn [forallb unopened child_handle _key andb].
      destruct deep; [|reflexivity].
      apply IH, Hks. now left.
    + apply IHks. intros e' He'. apply Hks. now right.
Qed.

Lemma items_of_direct c hkey (k : Key) segs :
  items_of c hkey false k segs
  = (map (fun t => IValue (RegValue_of t)) (values_of k)
     ++ map (fun e => IKey (child_handle c hkey false segs (fst e)))
         (subkeys_of k))%list.
Proof.
  destruct k as [vs ks]. cbn [items_of values_of subkeys_of].
  rewrite flat_map_concat_map. f_equal.
  induction ks as [|e ks IH]; [reflexivity|].
  cbn [map concat]. now rewrite IH.
Qed.

End IterationFacts.

(** X15: on a well-named tree of the registry service (the subkeys of
    every key have plain, distinct names), with fuel for the size of the tree, the iteration over an open handle yields a [RegValue]
    for every value, then for every subkey its derived handle, unopened,
    followed when the handle is recursive by the subkey's own sequence; the
    table of open handles ends as it began; and without the recursive flag
    the sequence is the values and the handles of the direct subkeys. *)
Theorem iter_values_then_subkeys :
  forall (fuel : nat) (k : Registry.Key) (self : RegKey) (s : string)
         (l : list string) (c : string) (w : Registry.World),
    TreeSpec.size k <= fuel ->
    TreeSpec.well_named k = true ->
    TreeSpec.opened_at w self s l k c ->
    exists w',
      __iter__ Registry.winreg fuel self [] w
      = Some ((TreeSpec.items_of c (_hkey self) (_deep self) k (s :: l),
               Ok tt), w')
      /\ TreeSpec.same_handles w w'
      /\ forallb TreeSpec.unopened
           (TreeSpec.items_of c (_hkey self) (_deep self) k (s :: l)) = true
      /\ TreeSpec.items_of c (_hkey self) false k (s :: l)
         = (map (fun t => IValue (RegValue_of t)) (Registry.values_of k)
            ++ map (fun e =>
                      IKey (TreeSpec.child_handle c (_hkey self) false
                              (s :: l) (fst e)))
                (Registry.subkeys_of k))%list.
Proof.
  intros fuel k self s l c w Hsize Hwn Hopen.
  destruct (iter_tree fuel k self s l c [] w Hsize Hwn Hopen)
    as (w' & Hrun & Hsame).
  exists w'. repeat split; try apply Hsame.
  - exact Hrun.
  - apply (unopened_items _ _ _ fuel k _ Hsize).
  - apply items_of_direct.
Qed.

Lemma opened_at_example (deep : bool) :
  TreeSpec.opened_at (Examples.entered_world (Examples.example_handle deep))
    (Examples.entered (Examples.example_handle deep)) "Example" []
    Registry.example_key "HKEY_CURRENT_USER".
Proof.
  repeat split; try reflexivity.
  - exists 0. split; reflexivity.
  - intros h k [E|[]]. injection E as <- _. cbn. lia.
Qed.

Lemma iter_values_then_subkeys_witness :
  exists w',
    __iter__ Registry.winreg 8 (Examples.entered (Examples.example_handle true))
      [] (Examples.entered_world (Examples.example_handle true))
    = Some ((TreeSpec.items_of "HKEY_CURRENT_USER" HKEY_CURRENT_USER true
               Registry.example_key ["Example"], Ok tt), w')
    /\ TreeSpec.same_handles
         (Examples.entered_world (Examples.example_handle true)) w'
    /\ forallb TreeSpec.unopened
         (TreeSpec.items_of "HKEY_CURRENT_USER" HKEY_CURRENT_USER true
            Registry.example_key ["Example"]) = true
    /\ TreeSpec.items_of "HKEY_CURRENT_USER" HKEY_CURRENT_USER false
         Registry.example_key ["Example"]
       = [IValue {| name := "A"; data := PInt 1; type := Registry.REG_DWORD |};
          IValue {| name := "B"; data := PStr "x"; type := Registry.REG_SZ |};
          IKey (TreeSpec.child_handle "HKEY_CURRENT_USER" HKEY_CURRENT_USER
                  false ["Example"] "C")].
Proof.
  apply (iter_values_then_subkeys 8 Registry.example_key
           (Examples.entered (Examples.example_handle true)) "Example" []
           "HKEY_CURRENT_USER"
           (Examples.entered_world (Examples.example_handle true))).
  - vm_compute. lia.
  - reflexivity.
  - exact (opened_at_example true).
Defined.

(** * Further properties of the constructor *)

Section ConstructorFacts.
Import PyStr.

Lemma upper_char_sep (c : ascii) :
  Ascii.eqb (upper_char c) sep = Ascii.eqb c sep.
Proof. destruct c as [[] [] [] [] [] [] [] []]; reflexivity. Qed.

Lemma mem_sep_upper (s : string) : mem sep (upper s) = mem sep s.
Proof.
  induction s as [|c s IH]; [reflexivity|].
  simpl. now rewrite upper_char_sep, IH.
Qed.

Lemma split_no_sep (s : string) : forallb no_sep (split sep s) = true.
Proof.
  induction s as [|c s IH]; [reflexivity|]. simpl.
  destruct (Ascii.eqb c sep) eqn:E; [exact IH|].
  destruct (split sep s) as [|x xs]; [now cbn; unfold no_sep; cbn; rewrite E|].
  cbn [forallb] in *. apply andb_prop in IH as [Hx Hxs].
  rewrite Hxs, andb_true_r. unfold no_sep in *. cbn. rewrite E. exact Hx.
Qed.

Lemma split_join_no_sep (s : string) (l : list string) :
  forallb no_sep (s :: l) = true ->
  split sep (join_with sep (s :: l)) = s :: l.
Proof.
  revert s. induction l as [|t l IH]; intros s H;
    cbn [forallb] in H; apply andb_prop in H as [Hs Hl];
    apply negb_true_iff in Hs.
  - cbn. now apply split_without.
  - rewrite join_with_prefixed.
    change (prefixed (t :: l)) with (String sep (t ++ prefixed l)).
    rewrite (split_app_sep _ _ Hs), <- join_with_prefixed. now rewrite IH.
Qed.

End ConstructorFacts.

(** X1: for a root-qualified path, the constructor without explicit root
    builds what the constructor with the root's identifier builds from the
    remaining segments joined by the separator: the two forms of the
    docstring agree once the leading separator is dropped. *)
Theorem init_name_form_as_explicit_form :
  forall (W : Type) (api : Winreg W) (path : string) (deep : bool),
    roots_by_name api ->
    root_qualified path = true ->
    exists id k,
      In (id, PyStr.upper (hd "" (PyStr.split PyStr.sep path))) HKEY_MAP
      /\ __init__ api path None deep = Ok k
      /\ __init__ api
           (PyStr.join_with PyStr.sep (tl (PyStr.split PyStr.sep path)))
           (Some id) deep = Ok k.
Proof.
  intros W api path deep Hroots Hq. unfold root_qualified in Hq.
  unfold __init__.
  destruct (PyStr.split PyStr.sep path) as [|seg0 [|seg1 segs]];
    try discriminate.
  apply andb_prop in Hq as [Hname Hplain].
  apply existsb_exists in Hname as [[id nm] [Hin Heq]].
  apply String.eqb_eq in Heq. simpl in Heq. subst nm.
  cbn [hd tl os_path_join]. rewrite (Hroots _ _ Hin).
  exists id. rewrite (HKEY_MAP_get_In _ _ Hin), (join_plain _ _ Hplain).
  eexists. repeat split. exact Hin.
Qed.

Lemma init_name_form_as_explicit_form_witness :
  exists id k,
    In (id, PyStr.upper
              (hd "" (PyStr.split PyStr.sep "hkey_users\.DEFAULT\Console")))
       HKEY_MAP
    /\ __init__ Registry.winreg "hkey_users\.DEFAULT\Console" None false = Ok k
    /\ __init__ Registry.winreg
         (PyStr.join_with PyStr.sep
            (tl (PyStr.split PyStr.sep "hkey_users\.DEFAULT\Console")))
         (Some id) false = Ok k.
Proof.
  apply init_name_form_as_explicit_form;
    [exact registry_roots_by_name | reflexivity].
Defined.

(** X2: a handle the constructor has just built is not open: outside a
    [with] block every read raises [KeyNotOpenException], and nothing is
    asked of the registry. *)
Theorem init_handle_not_open :
  forall (W : Type) (api : Winreg W) (path : string) (hkey : option Z)
         (deep : bool) (k : RegKey) (nm : string) (d : option bool)
         (keep_type : bool) (fuel : nat) (w : W),
    __init__ api path hkey deep = Ok k ->
    _key k = None
    /\ get_value api k nm w = Raise KeyNotOpenException
    /\ __getitem__ api k nm w = Raise KeyNotOpenException
    /\ get_sub_key api k nm d = Raise KeyNotOpenException
    /\ enum_keys api fuel k w = Some (([], Raise KeyNotOpenException), w)
    /\ enum_values api fuel k w = Some (([], Raise KeyNotOpenException), w)
    /\ __iter__ api (S fuel) k [] w
       = Some (([], Raise KeyNotOpenException), w)
    /\ to_dict api (S fuel) k keep_type w
       = Some (Raise KeyNotOpenException, w).
Proof.
  intros W api path hkey deep k nm d keep_type fuel w H.
  assert (Hk : _key k = None).
  { unfold __init__ in H. destruct hkey as [id|].
    - destruct (HKEY_MAP_get HKEY_MAP id); [|discriminate].
      now injection H as <-.
    - destruct (os_path_join _); [|discriminate].
      destruct (getattr_number api _); [|discriminate].
      now injection H as <-. }
  split; [exact Hk|].
  unfold get_value, __getitem__, get_value, get_sub_key, enum_keys,
    enum_values, for_enum_keys, for_enum_values.
  cbn [__iter__ to_dict]. unfold for_enum_keys, for_enum_values.
  rewrite Hk. cbn. repeat split.
Qed.

Lemma init_handle_not_open_witness :
  let k := Examples.example_handle false in
  let w := Registry.example_world in
  _key k = None
  /\ get_value Registry.winreg k "A" w = Raise KeyNotOpenException
  /\ __getitem__ Registry.winreg k "A" w = Raise KeyNotOpenException
  /\ get_sub_key Registry.winreg k "A" None = Raise KeyNotOpenException
  /\ enum_keys Registry.winreg 2 k w
     = Some (([], Raise KeyNotOpenException), w)
  /\ enum_values Registry.winreg 2 k w
     = Some (([], Raise KeyNotOpenException), w)
  /\ __iter__ Registry.winreg 3 k [] w
     = Some (([], Raise KeyNotOpenException), w)
  /\ to_dict Registry.winreg 3 k false w
     = Some (Raise KeyNotOpenException, w).
Proof.
  apply (init_handle_not_open Registry.World Registry.winreg
           "HKEY_CURRENT_USER\Example" None false).
  reflexivity.
Defined.

(** X3: the root name of a path is read without regard to case: two
    paths whose first segments have the same upper-case form and whose
    remainders are equal give the same result, handle or exception. *)
Theorem init_root_name_case_insensitive :
  forall (W : Type) (api : Winreg W) (a b rest : string) (deep : bool),
    PyStr.mem PyStr.sep a = false ->
    PyStr.mem PyStr.sep b = false ->
    PyStr.upper a = PyStr.upper b ->
    __init__ api (a ++ String PyStr.sep rest) None deep
    = __init__ api (b ++ String PyStr.sep rest) None deep.
Proof.
  intros W api a b rest deep Ha Hb Hab. unfold __init__.
  rewrite (split_app_sep a rest Ha), (split_app_sep b rest Hb).
  cbn [hd tl]. now rewrite Hab.
Qed.

Lemma init_root_name_case_insensitive_witness :
  __init__ Registry.winreg ("Hkey_Users" ++ String PyStr.sep "S-1-5\Env")
    None true
  = __init__ Registry.winreg ("HKEY_USERS" ++ String PyStr.sep "S-1-5\Env")
      None true.
Proof.
  apply init_root_name_case_insensitive; reflexivity.
Defined.

(** X4: the text [__repr__] shows between the parentheses is a path the
    constructor reads back into the same handle: for a handle built from a
    root-qualified path, display then parse is the identity. *)
Theorem repr_reads_back :
  forall (W : Type) (api : Winreg W) (path : string) (deep : bool)
         (k : RegKey),
    roots_by_name api ->
    root_qualified path = true ->
    __init__ api path None deep = Ok k ->
    __repr__ k
    = "RegKey(" ++ (_hkey_name k ++ String PyStr.sep (_path k)) ++ ")"
    /\ __init__ api (_hkey_name k ++ String PyStr.sep (_path k)) None deep
       = Ok k.
Proof.
  intros W api path deep k Hroots Hq Hk. split.
  { unfold __repr__. now rewrite !app_assoc_s. }
  unfold root_qualified in Hq. unfold __init__ in Hk.
  pose proof (split_no_sep path) as Hns.
  destruct (PyStr.split PyStr.sep path) as [|seg0 [|seg1 segs]];
    try discriminate.
  apply andb_prop in Hq as [Hname Hplain].
  apply existsb_exists in Hname as [[id nm] [Hin Heq]].
  apply String.eqb_eq in Heq. simpl in Heq. subst nm.
  cbn [hd tl os_path_join] in Hk. rewrite (Hroots _ _ Hin) in Hk.
  rewrite (join_plain _ _ Hplain) in Hk. injection Hk as <-.
  cbn [_hkey_name _path]. unfold __init__.
  cbn [forallb] in Hns. apply andb_prop in Hns as [Hs0 Hrest].
  assert (Hup : PyStr.mem PyStr.sep (PyStr.upper seg0) = false).
  { rewrite mem_sep_upper. now apply negb_true_iff in Hs0. }
  rewrite (split_app_sep _ _ Hup), (split_join_no_sep _ _ Hrest).
  cbn [hd tl os_path_join]. rewrite upper_idem, (Hroots _ _ Hin).
  now rewrite (join_plain _ _ Hplain).
Qed.

Lemma repr_reads_back_witness :
  let k := {| _hkey_name := "HKEY_LOCAL_MACHINE"; _path := "SOFTWARE\Run";
              _hkey := HKEY_LOCAL_MACHINE; _key := None; _deep := false |} in
  __repr__ k = "RegKey(" ++ ("HKEY_LOCAL_MACHINE" ++ String PyStr.sep "SOFTWARE\Run") ++ ")"
  /\ __init__ Registry.winreg
       ("HKEY_LOCAL_MACHINE" ++ String PyStr.sep "SOFTWARE\Run") None false
     = Ok k.
Proof.
  apply (repr_reads_back Registry.World Registry.winreg
           "hkey_local_machine\SOFTWARE\Run" false);
    [exact registry_roots_by_name | reflexivity | reflexivity].
Defined.

(** * Further properties of names and derived handles *)

Section NameFacts.
Import PyStr NtPath.

Lemma take_drop (n : nat) (s : string) : take n s ++ drop n s = s.
Proof.
  revert s. induction n as [|n IH]; intros [|c s]; try reflexivity.
  simpl. now rewrite IH.
Qed.

Lemma splitdrive_parts (p : string) :
  fst (splitdrive p) ++ snd (splitdrive p) = p.
Proof.
  unfold splitdrive.
  repeat match goal with
         | |- context [if ?b then _ else _] => destruct b
         | |- context [match ?o with Some _ => _ | None => _ end] =>
             destruct o
         end; cbn [fst snd]; try reflexivity; apply take_drop.
Qed.

Lemma tail_of_suffix (p : string) : exists pre, p = pre ++ tail_of p.
Proof.
  induction p as [|c p [pre IH]]; [now exists ""|]. simpl.
  destruct (mem sep p || mem altsep p).
  - exists (String c pre). simpl. now rewrite <- IH.
  - destruct (is_sep c).
    + now exists (String c "").
    + now exists "".
Qed.

Lemma tail_of_no_seps (p : string) :
  mem sep (tail_of p) = false /\ mem altsep (tail_of p) = false.
Proof.
  induction p as [|c p IH]; [now split|]. simpl.
  destruct (mem sep p || mem altsep p) eqn:E; [exact IH|].
  apply orb_false_elim in E as [E1 E2].
  destruct (is_sep c) eqn:Ec; [now split|].
  unfold is_sep in Ec. apply orb_false_elim in Ec as [Ec1 Ec2].
  simpl. now rewrite Ec1, Ec2, E1, E2.
Qed.

Lemma tail_of_plain (n : string) :
  mem sep n = false -> mem altsep n = false -> tail_of n = n.
Proof.
  destruct n as [|c n]; [reflexivity|]. simpl. intros H1 H2.
  apply orb_false_elim in H1 as [Hc1 H1].
  apply orb_false_elim in H2 as [Hc2 H2].
  rewrite H1, H2. unfold is_sep. now rewrite Hc1, Hc2.
Qed.

Lemma plain_segment_snoc (a b : string) :
  TreeSpec.plain_name a = true -> TreeSpec.plain_name b = true ->
  plain_segment (a ++ String sep b) = true.
Proof.
  intros Ha Hb.
  pose proof (plain_segment_join a [b]) as H.
  rewrite join_with_prefixed in H. cbn [prefixed] in H.
  rewrite app_empty_r in H. apply H. cbn [forallb].
  now rewrite (plain_name_segment a Ha), (plain_name_segment b Hb).
Qed.

End NameFacts.

(** X5: the [name] of a handle is the end of its path and is a single
    component: the path is some prefix followed by the name, and the name
    holds neither a backslash nor a slash. *)
Theorem name_is_final_component :
  forall (self : RegKey),
    (exists pre, _path self = pre ++ key_name self)
    /\ PyStr.mem PyStr.sep (key_name self) = false
    /\ PyStr.mem PyStr.altsep (key_name self) = false.
Proof.
  intros self. unfold key_name, NtPath.split_tail. split.
  - destruct (tail_of_suffix (snd (NtPath.splitdrive (_path self))))
      as [pre Hpre].
    exists (fst (NtPath.splitdrive (_path self)) ++ pre).
    rewrite app_assoc_s, <- Hpre. symmetry. apply splitdrive_parts.
  - apply tail_of_no_seps.
Qed.

(** X6: for a handle whose path is made of plain key names joined by the
    separator, [name] is the last of them. *)
Theorem name_is_last_segment :
  forall (self : RegKey) (segs : list string) (n : string),
    forallb TreeSpec.plain_name (segs ++ [n]) = true ->
    _path self = PyStr.join_with PyStr.sep (segs ++ [n]) ->
    key_name self = n.
Proof.
  intros self segs n Hall Hp. unfold key_name, NtPath.split_tail. rewrite Hp.
  rewrite forallb_app in Hall. apply andb_prop in Hall as [Hsegs Hn].
  cbn [forallb] in Hn. rewrite andb_true_r in Hn.
  destruct (plain_name_parts n Hn) as (_ & H2 & H3 & _).
  destruct segs as [|s l].
  - cbn. rewrite (splitdrive_plain n (plain_name_segment n Hn)). cbn [snd].
    now apply tail_of_plain.
  - assert (Hplain : forallb plain_segment (s :: (l ++ [n])) = true).
    { apply forallb_forall. intros x Hx. apply plain_name_segment.
      change (s :: (l ++ [n]))%list with ((s :: l) ++ [n])%list in Hx.
      apply in_app_or in Hx as [Hx|[<-|[]]]; [|exact Hn].
      rewrite forallb_forall in Hsegs. auto. }
    change ((s :: l) ++ [n])%list with (s :: (l ++ [n]))%list.
    rewrite (splitdrive_plain _ (plain_segment_join _ _ Hplain)). cbn [snd].
    change (s :: (l ++ [n]))%list with ((s :: l) ++ [n])%list.
    rewrite join_with_snoc. now apply tail_of_app.
Qed.

Lemma name_is_last_segment_witness :
  key_name {| _hkey_name := "HKEY_USERS"; _path := "S-1-5\Software\Run";
              _hkey := HKEY_USERS; _key := None; _deep := false |} = "Run".
Proof.
  apply (name_is_last_segment _ ["S-1-5"; "Software"] "Run"); reflexivity.
Defined.

(** X7: deriving subkeys composes: from an open handle at plain segments,
    the handle derived for [a] and, once opened, asked for [b] is the handle
    derived at once for the sub-path [a\b]; both are unopened, keep the root
    and lie at the segments followed by [a] and [b]. *)
Theorem get_sub_key_composes :
  forall (W : Type) (api : Winreg W) (self : RegKey) (h h' : HKEY)
         (s : string) (l : list string) (a b c : string) (d : option bool),
    _key self = Some h ->
    _path self = PyStr.join_with PyStr.sep (s :: l) ->
    HKEY_MAP_get HKEY_MAP (_hkey self) = Some c ->
    forallb TreeSpec.plain_name (s :: l) = true ->
    TreeSpec.plain_name a = true ->
    TreeSpec.plain_name b = true ->
    exists child grandchild,
      get_sub_key api self a d = Ok child
      /\ get_sub_key api (set_key child (Some h')) b None = Ok grandchild
      /\ get_sub_key api self (a ++ String PyStr.sep b) d = Ok grandchild
      /\ grandchild
         = TreeSpec.child_handle c (_hkey self)
             (match d with None => _deep self | Some x => x end)
             ((s :: l) ++ [a]) b.
Proof.
  intros W api self h h' s l a b c d Hk Hp Hc Hl Ha Hb.
  assert (Hseg : forallb plain_segment (s :: l) = true).
  { apply forallb_forall. intros x Hx. apply plain_name_segment.
    rewrite forallb_forall in Hl. auto. }
  assert (Hla : forallb TreeSpec.plain_name (s :: (l ++ [a])) = true).
  { change (s :: (l ++ [a]))%list with ((s :: l) ++ [a])%list.
    rewrite forallb_app, Hl. cbn. now rewrite Ha. }
  unfold get_sub_key, __init__. rewrite Hk, Hc, Hp.
  rewrite (join_child s l a Hl Ha).
  eexists. eexists. split; [reflexivity|].
  cbn [set_key _key _path _hkey _deep]. rewrite Hc.
  change ((s :: l) ++ [a])%list with (s :: (l ++ [a]))%list.
  rewrite (join_child s (l ++ [a]) b Hla Hb).
  split; [reflexivity|]. split; [|reflexivity].
  rewrite join_plain.
  - rewrite (join_with_snoc s (l ++ [a]) b).
    change (s :: (l ++ [a]))%list with ((s :: l) ++ [a])%list.
    rewrite (join_with_snoc s l a).
    change (PyStr.join_with PyStr.sep
              [PyStr.join_with PyStr.sep (s :: l); a ++ String PyStr.sep b])
      with (PyStr.join_with PyStr.sep (s :: l)
              ++ String PyStr.sep EmptyString
              ++ (a ++ String PyStr.sep b)).
    rewrite !app_assoc_s. reflexivity.
  - cbn [forallb]. rewrite (plain_segment_join _ _ Hseg).
    now rewrite (plain_segment_snoc a b Ha Hb).
Qed.

Lemma get_sub_key_composes_witness :
  let self := Examples.entered (Examples.example_handle true) in
  exists child grandchild,
    get_sub_key Registry.winreg self "C" None = Ok child
    /\ get_sub_key Registry.winreg (set_key child (Some 7)) "E" None
       = Ok grandchild
    /\ get_sub_key Registry.winreg self ("C" ++ String PyStr.sep "E") None
       = Ok grandchild
    /\ grandchild
       = TreeSpec.child_handle "HKEY_CURRENT_USER" HKEY_CURRENT_USER true
           ["Example"; "C"] "E".
Proof.
  apply (get_sub_key_composes Registry.World Registry.winreg
           (Examples.entered (Examples.example_handle true)) 0 7
           "Example" [] "C" "E" "HKEY_CURRENT_USER" None); reflexivity.
Defined.

(** * Further properties of opening and enumerating *)

(** X8: on the registry service, entering a handle and leaving it again
    restores the table of open handles: in between, the handle holds a new
    native handle on the key its path resolves to; afterwards the object is
    closed and the service has the trees and the open handles it had. *)
Theorem enter_exit_restores :
  forall (self opened : RegKey) (w w1 : Registry.World) (exc : option exn),
    TreeSpec.handles_fresh w ->
    __enter__ Registry.winreg self w = (Ok opened, w1) ->
    (exists k,
        Registry.resolve w (_hkey self) (_path self) = Some k
        /\ _key opened = Some (Registry.next_handle w)
        /\ Registry.assoc Nat.eqb (Registry.handles w1)
             (Registry.next_handle w) = Some k)
    /\ fst (__exit__ Registry.winreg opened exc w1) = set_key self None
    /\ TreeSpec.same_handles w (snd (__exit__ Registry.winreg opened exc w1)).
Proof.
  intros self opened w w1 exc Hfresh H.
  unfold __enter__ in H. cbn [OpenKey Registry.winreg] in H.
  unfold Registry.open_key in H.
  destruct (Registry.resolve w (_hkey self) (_path self)) as [k|] eqn:Hres;
    [|discriminate].
  injection H as <- <-. split; [|split].
  - exists k. repeat split. cbn. now rewrite Nat.eqb_refl.
  - reflexivity.
  - unfold __exit__, TreeSpec.same_handles.
    cbn [snd CloseKey Registry.winreg set_key _key Registry.close_key
           Registry.hives Registry.handles Registry.next_handle filter fst].
    rewrite Nat.eqb_refl. cbn [negb].
    split; [reflexivity|]. split; [|lia].
    now apply filter_fresh.
Qed.

Lemma fresh_example_world : TreeSpec.handles_fresh Registry.example_world.
Proof. intros h k []. Qed.

Lemma enter_exit_restores_witness :
  let self := Examples.example_handle false in
  let opened := Examples.entered self in
  let w1 := Examples.entered_world self in
  (exists k,
      Registry.resolve Registry.example_world (_hkey self) (_path self)
      = Some k
      /\ _key opened = Some (Registry.next_handle Registry.example_world)
      /\ Registry.assoc Nat.eqb (Registry.handles w1)
           (Registry.next_handle Registry.example_world) = Some k)
  /\ fst (__exit__ Registry.winreg opened None w1) = set_key self None
  /\ TreeSpec.same_handles Registry.example_world
       (snd (__exit__ Registry.winreg opened None w1)).
Proof.
  apply (enter_exit_restores (Examples.example_handle false)).
  - exact fresh_example_world.
  - reflexivity.
Defined.

(** X9: on the registry service, for a handle open on a key, [enum_keys]
    lists the names of the subkeys and [enum_values] the value tuples, both
    in the order of the key, and end without an exception once the entries
    are exhausted; the service is left as it is. *)
Theorem enum_lists_entries :
  forall (fuel : nat) (self : RegKey) (h : HKEY) (k : Registry.Key)
         (w : Registry.World),
    _key self = Some h ->
    Registry.assoc Nat.eqb (Registry.handles w) h = Some k ->
    length (Registry.values_of k) < fuel ->
    length (Registry.subkeys_of k) < fuel ->
    enum_keys Registry.winreg fuel self w
    = Some ((map fst (Registry.subkeys_of k), Ok tt), w)
    /\ enum_values Registry.winreg fuel self w
       = Some ((Registry.values_of k, Ok tt), w).
Proof.
  intros fuel self h k w Hk Hh Hv Hs.
  unfold enum_keys, enum_values, for_enum_keys, for_enum_values.
  rewrite Hk. split.
  - rewrite (for_enum_collect _ w (WindowsError Registry.ERROR_NO_MORE_ITEMS)
               (map fst (Registry.subkeys_of k)) fuel 0 []); [reflexivity| | |].
    + intros j x Hj. cbn [Nat.add]. rewrite (enum_key_at w h k j Hh).
      now rewrite Hj.
    + cbn [Nat.add]. rewrite (enum_key_at w h k _ Hh).
      now replace (nth_error _ _) with (@None string)
        by (symmetry; apply nth_error_None; lia).
    + now rewrite length_map.
  - rewrite (for_enum_collect _ w (WindowsError Registry.ERROR_NO_MORE_ITEMS)
               (Registry.values_of k) fuel 0 []); [reflexivity| | |].
    + intros j x Hj. cbn [Nat.add]. rewrite (enum_value_at w h k j Hh).
      now rewrite Hj.
    + cbn [Nat.add]. rewrite (enum_value_at w h k _ Hh).
      now replace (nth_error _ _) with (@None (string * pydata * Z))
        by (symmetry; apply nth_error_None; lia).
    + exact Hv.
Qed.

Lemma enum_lists_entries_witness :
  let self := Examples.entered (Examples.example_handle false) in
  let w := Examples.entered_world (Examples.example_handle false) in
  enum_keys Registry.winreg 3 self w
  = Some ((map fst (Registry.subkeys_of Registry.example_key), Ok tt), w)
  /\ enum_values Registry.winreg 3 self w
     = Some ((Registry.values_of Registry.example_key, Ok tt), w).
Proof.
  apply (enum_lists_entries 3 _ 0 Registry.example_key).
  - reflexivity.
  - reflexivity.
  - simpl. lia.
  - simpl. lia.
Defined.

(** a loop whose body only folds [f] into the accumulator, compared with
    the loop that collects: same entries, same end, service untouched *)
Lemma for_enum_pure {W X S : Type} (prim : nat -> W -> res X)
  (body : X -> S -> W -> @run W S) (f : S -> X -> S) :
  (forall x s w, body x s w = Some ((f s x, Ok tt), w)) ->
  forall (fuel i : nat) (acc : list X) (s : S) (w : W) (xs : list X)
         (r : res unit) (w' : W),
    for_enum fuel prim collect i acc w = Some ((xs, r), w') ->
    w' = w
    /\ exists ys,
        xs = (acc ++ ys)%list
        /\ for_enum fuel prim body i s w = Some ((fold_left f ys s, r), w).
Proof.
  intros Hbody. induction fuel as [|fuel IH];
    intros i acc s w xs r w' H; [discriminate|].
  cbn [for_enum] in *. destruct (prim i w) as [x|e].
  - unfold collect at 1 in H. rewrite Hbody.
    destruct (IH _ _ (f s x) _ _ _ _ H) as (-> & ys & -> & Hrun).
    split; [reflexivity|]. exists (x :: ys). split.
    + now rewrite <- app_assoc.
    + exact Hrun.
  - destruct (isinstance_WindowsError e); injection H as <- <- <-;
      (split; [reflexivity|]); exists []; now rewrite app_nil_r.
Qed.

(** X10: for any registry module, the iteration over an open handle whose
    recursive flag is unset is the two enumerations put together: a
    [RegValue] for every tuple [enum_values] gives, then for every name
    [enum_keys] gives the unopened handle [get_sub_key] derives; nothing is
    opened. *)
Theorem iter_direct_is_enumerations :
  forall (W : Type) (api : Winreg W) (fuel : nat) (self : RegKey) (h : HKEY)
         (c : string) (w : W) (vals : list (string * pydata * Z))
         (names : list string),
    _deep self = false ->
    _key self = Some h ->
    HKEY_MAP_get HKEY_MAP (_hkey self) = Some c ->
    enum_values api fuel self w = Some ((vals, Ok tt), w) ->
    enum_keys api fuel self w = Some ((names, Ok tt), w) ->
    __iter__ api (S fuel) self [] w
    = Some (((map (fun t => IValue (RegValue_of t)) vals
              ++ map (fun n =>
                        IKey {| _hkey_name := c;
                                _path := NtPath.join (_path self) [n];
                                _hkey := _hkey self; _key := None;
                                _deep := false |})
                  names)%list, Ok tt), w).
Proof.
  intros W api fuel self h c w vals names Hdeep Hk Hc Hv Hn.
  unfold enum_values, enum_keys, for_enum_values, for_enum_keys in Hv, Hn.
  cbn [__iter__]. unfold for_enum_values, for_enum_keys.
  rewrite Hk in *.
  match goal with
  | |- context [for_enum fuel (EnumValue api h) ?body 0 [] w] =>
      destruct (for_enum_pure (EnumValue api h) body
                  (fun acc t => (acc ++ [IValue (RegValue_of t)])%list)
                  (fun _ _ _ => eq_refl) fuel 0 [] [] w vals (Ok tt) w Hv)
        as (_ & ys & Hys & ->)
  end.
  cbn [app] in Hys. subst ys. cbn [and_then].
  match goal with
  | |- context [for_enum fuel (EnumKey api h) ?body 0 ?s0 w] =>
      assert (Hb : forall x s1 w1,
                 body x s1 w1
                 = Some (((s1 ++ [IKey {| _hkey_name := c;
                                          _path := NtPath.join (_path self) [x];
                                          _hkey := _hkey self; _key := None;
                                          _deep := false |}])%list, Ok tt),
                         w1));
      [ intros x s1 w1; unfold get_sub_key, __init__;
        now rewrite Hk, Hc, Hdeep
      | destruct (for_enum_pure (EnumKey api h) body _ Hb fuel 0 [] s0 w
                    names (Ok tt) w Hn) as (_ & ys & Hys & ->) ]
  end.
  cbn [app] in Hys. subst ys. now rewrite !fold_snoc_map, app_nil_l.
Qed.

Lemma iter_direct_is_enumerations_witness :
  let self := Examples.entered (Examples.example_handle false) in
  let w := Examples.entered_world (Examples.example_handle false) in
  __iter__ Registry.winreg 4 self [] w
  = Some (((map (fun t => IValue (RegValue_of t))
              (Registry.values_of Registry.example_key)
            ++ map (fun n =>
                      IKey {| _hkey_name := "HKEY_CURRENT_USER";
                              _path := NtPath.join (_path self) [n];
                              _hkey := _hkey self; _key := None;
                              _deep := false |})
                ["C"])%list, Ok tt), w).
Proof.
  apply (iter_direct_is_enumerations Registry.World Registry.winreg 3
           (Examples.entered (Examples.example_handle false)) 0
           "HKEY_CURRENT_USER"); reflexivity.
Defined.

(** * No native handle is left open *)

(** a loop keeps what its body keeps *)
Lemma for_enum_keeps {W X S : Type} (prim : nat -> W -> res X)
  (body : X -> S -> W -> @run W S) (Inv : W -> Prop) :
  (forall x s w r w', Inv w -> body x s w = Some (r, w') -> Inv w') ->
  forall (fuel i : nat) (s : S) (w : W) r w',
    Inv w -> for_enum fuel prim body i s w = Some (r, w') -> Inv w'.
Proof.
  intros Hbody. induction fuel as [|fuel IH]; intros i s w r w' Hw H;
    [discriminate|].
  cbn [for_enum] in H. destruct (prim i w) as [x|e].
  - destruct (body x s w) as [[[s1 [u|e]] w1]|] eqn:Hb; [| |discriminate].
    + apply (IH _ _ _ _ _ (Hbody _ _ _ _ _ Hw Hb) H).
    + injection H as <- <-. apply (Hbody _ _ _ _ _ Hw Hb).
  - destruct (isinstance_WindowsError e); now injection H as <- <-.
Qed.

Section NoLeak.
Import Registry TreeSpec.

Lemma fresh_same (w w' : World) :
  handles_fresh w -> same_handles w w' -> handles_fresh w'.
Proof.
  intros H (_ & B & C) h k Hin. rewrite B in Hin.
  specialize (H h k Hin). lia.
Qed.

(** [with key:] closes what it opened, however the body ends *)
Lemma with_key_keeps {S : Type} (body : RegKey -> S -> World -> @run World S)
  (key : RegKey) (s : S) (w : World) r w' :
  handles_fresh w ->
  (forall key1 s1 w1 r1 w2,
      handles_fresh w1 -> body key1 s1 w1 = Some (r1, w2) ->
      same_handles w1 w2) ->
  with_key winreg key body s w = Some (r, w') ->
  same_handles w w'.
Proof.
  intros Hfresh Hbody H. unfold with_key, __enter__ in H.
  cbn [OpenKey winreg] in H. unfold open_key in H.
  destruct (resolve w (_hkey key) (_path key)) as [sub|].
  - fold (after_open w sub) in H.
    destruct (body _ s (after_open w sub)) as [[[s1 r1] w2]|] eqn:Hb;
      [|discriminate].
    injection H as <- <-.
    destruct (Hbody _ _ _ _ _ (fresh_after_open w sub Hfresh) Hb)
      as (A & B & C).
    unfold __exit__, same_handles.
    cbn [snd CloseKey winreg set_key _key close_key hives handles
           next_handle].
    rewrite A, B. cbn [after_open hives handles next_handle filter fst] in *.
    rewrite Nat.eqb_refl. cbn [negb].
    split; [reflexivity|]. split; [|lia]. now apply filter_fresh.
  - injection H as <- <-. apply same_handles_refl.
Qed.

Lemma iter_keeps_handles : forall (fuel : nat) (self : RegKey)
    (acc : list item) (w : World) r w',
  handles_fresh w ->
  __iter__ winreg fuel self acc w = Some (r, w') ->
  same_handles w w'.
Proof.
  induction fuel as [|fuel IH]; intros self acc w r w' Hfresh H;
    [discriminate|].
  rewrite iter_S in H. unfold and_then in H.
  match type of H with
  | match ?first with _ => _ end = _ =>
      destruct first as [[[s1 [u|e]] w1]|] eqn:E1; [| |discriminate]
  end.
  - assert (H1 : same_handles w w1).
    { unfold for_enum_values in E1. destruct (_key self) as [h|].
      - apply (for_enum_keeps _ _ (same_handles w)) in E1; auto.
        + intros x s0 w0 r0 w0' Hw0 Hb. now injection Hb as _ <-.
        + apply same_handles_refl.
      - injection E1 as _ _ <-. apply same_handles_refl. }
    unfold for_enum_keys in H. destruct (_key self) as [h|].
    + apply (for_enum_keeps _ _ (same_handles w)) in H; auto.
      intros x s0 w0 r0 w0' Hw0 Hb.
      destruct (get_sub_key winreg self x None) as [key|e].
      * cbv zeta in Hb. destruct (_deep self).
        -- apply (same_handles_trans w w0 w0' Hw0).
           apply (with_key_keeps _ _ _ _ _ _ (fresh_same w w0 Hfresh Hw0)
                    (fun key1 s1 w1' r1 w2 Hf Hr => IH key1 s1 w1' r1 w2 Hf Hr)
                    Hb).
        -- now injection Hb as _ <-.
      * now injection Hb as _ <-.
    + now injection H as _ <-.
  - injection H as _ <-.
    unfold for_enum_values in E1. destruct (_key self) as [h|].
    + apply (for_enum_keeps _ _ (same_handles w)) in E1; auto.
      * intros x s0 w0 r0 w0' Hw0 Hb. now injection Hb as _ <-.
      * apply same_handles_refl.
    + injection E1 as _ _ <-. apply same_handles_refl.
Qed.

Lemma to_dict_keeps_handles : forall (fuel : nat) (self : RegKey)
    (keep_type : bool) (w : World) r w',
  handles_fresh w ->
  to_dict winreg fuel self keep_type w = Some (r, w') ->
  same_handles w w'.
Proof.
  induction fuel as [|fuel IH]; intros self kt w r w' Hfresh H;
    [discriminate|].
  rewrite to_dict_S in H.
  match type of H with
  | match ?run with _ => _ end = _ =>
      destruct run as [[[s2 r2] w2]|] eqn:E; [|discriminate]
  end.
  assert (Hw2 : same_handles w w2).
  { unfold and_then in E.
    match type of E with
    | match ?first with _ => _ end = _ =>
        destruct first as [[[s1 [u|e]] w1]|] eqn:E1; [| |discriminate]
    end;
      (assert (H1 : same_handles w w1);
       [ unfold for_enum_values in E1; destruct (_key self) as [h|];
         [ apply (for_enum_keeps _ _ (same_handles w)) in E1; auto;
           [ intros x s0 w0 r0 w0' Hw0 Hb; now injection Hb as _ <-
           | apply same_handles_refl ]
         | injection E1 as _ _ <-; apply same_handles_refl ]
       | ]).
    - unfold for_enum_keys in E. destruct (_key self) as [h|].
      + apply (for_enum_keeps _ _ (same_handles w)) in E; auto.
        intros x s0 w0 r0 w0' Hw0 Hb.
        destruct (get_sub_key winreg self x (Some false)) as [key|e].
        * apply (same_handles_trans w w0 w0' Hw0).
          apply (with_key_keeps _ _ _ _ _ _ (fresh_same w w0 Hfresh Hw0))
            in Hb; [exact Hb|].
          intros key1 s1' w1' r1 w3 Hf Hr.
          destruct (to_dict winreg fuel key1 false w1')
            as [[[d|e] w4]|] eqn:Et; [| |discriminate];
            injection Hr as _ <-; apply (IH _ _ _ _ _ Hf Et).
        * now injection Hb as _ <-.
      + now injection E as _ _ <-.
    - now injection E as _ _ <-. }
  destruct r2 as [u|e]; now injection H as _ <-.
Qed.

End NoLeak.

(** X11: on the registry service, whatever the tree and however the run
    ends, with the sequence complete or with an exception on the way, a
    finished iteration leaves the trees and the table of open handles as
    they were: every subkey it opened is closed again. *)
Theorem iter_leaves_no_handle_open :
  forall (fuel : nat) (self : RegKey) (acc : list item)
         (w w' : Registry.World) (r : list item * res unit),
    TreeSpec.handles_fresh w ->
    __iter__ Registry.winreg fuel self acc w = Some (r, w') ->
    TreeSpec.same_handles w w'.
Proof.
  intros fuel self acc w w' r. apply iter_keeps_handles.
Qed.

Lemma fresh_odd_world :
  TreeSpec.handles_fresh OddExamples.odd_entered_world.
Proof. intros h k [E|[]]. injection E as <- _. cbn. lia. Qed.

Lemma iter_leaves_no_handle_open_witness :
  exists w',
    __iter__ Registry.winreg 6 OddExamples.odd_handle []
      OddExamples.odd_entered_world
    = Some (([IValue {| name := "V"; data := PInt 5;
                        type := Registry.REG_DWORD |};
              IKey (TreeSpec.child_handle "HKEY_USERS" HKEY_USERS true
                      ["Odd"] "C");
              IValue {| name := "D"; data := PInt 2;
                        type := Registry.REG_DWORD |};
              IKey (TreeSpec.child_handle "HKEY_USERS" HKEY_USERS true
                      ["Odd"; "C"] "E");
              IKey {| _hkey_name := "HKEY_USERS"; _path := "/x";
                      _hkey := HKEY_USERS; _key := None; _deep := true |}],
             Raise (WindowsError Registry.ERROR_FILE_NOT_FOUND)), w')
    /\ TreeSpec.same_handles OddExamples.odd_entered_world w'.
Proof.
  eexists. split; [reflexivity|].
  apply (iter_leaves_no_handle_open 6 OddExamples.odd_handle []
           OddExamples.odd_entered_world _ _ fresh_odd_world eq_refl).
Defined.

(** X12: the same for [to_dict]: a finished run, returning a mapping or
    raising, leaves the trees and the table of open handles as they were. *)
Theorem to_dict_leaves_no_handle_open :
  forall (fuel : nat) (self : RegKey) (keep_type : bool)
         (w w' : Registry.World) (r : res dict),
    TreeSpec.handles_fresh w ->
    to_dict Registry.winreg fuel self keep_type w = Some (r, w') ->
    TreeSpec.same_handles w w'.
Proof.
  intros fuel self keep_type w w' r. apply to_dict_keeps_handles.
Qed.

Lemma to_dict_leaves_no_handle_open_witness :
  exists w',
    to_dict Registry.winreg 6 OddExamples.odd_handle false
      OddExamples.odd_entered_world
    = Some (Raise (WindowsError Registry.ERROR_FILE_NOT_FOUND), w')
    /\ TreeSpec.same_handles OddExamples.odd_entered_world w'.
Proof.
  eexists. split; [reflexivity|].
  apply (to_dict_leaves_no_handle_open 6 OddExamples.odd_handle false
           OddExamples.odd_entered_world _ _ fresh_odd_world eq_refl).
Defined.

(** * The mapping of a whole tree *)

Section MappingKeys.
Import Registry TreeSpec.







End MappingKeys.





(** * Where a registry name is not a file name, and closing *)

(** C3, at a path the registry has: [Console] holds subkeys named after the
    path of a program, such as [C:_Windows_system32_cmd.exe].  The first
    segment names the root, but [os.path.join] takes the last segment for a
    drive and a path on it, so the relative path of the handle is that
    segment alone, not the remaining segments joined by the separator. *)
Theorem init_drive_like_segment :
  __init__ Registry.winreg
    "HKEY_CURRENT_USER\Console\C:_Windows_system32_cmd.exe" None false
  = Ok {| _hkey_name := "HKEY_CURRENT_USER";
          _path := "C:_Windows_system32_cmd.exe";
          _hkey := HKEY_CURRENT_USER; _key := None; _deep := false |}
  /\ PyStr.join_with PyStr.sep
       (tl (PyStr.split PyStr.sep
              "HKEY_CURRENT_USER\Console\C:_Windows_system32_cmd.exe"))
     = "Console\C:_Windows_system32_cmd.exe".
Proof. split; reflexivity. Qed.

(** X18: with no explicit root, for every path with at least two segments
    whose first segment names a root in any case, whatever the further
    segments are, the constructor builds a closed handle on the root whose
    name in [HKEY_MAP] is the first segment, compared without regard to
    case; its relative path is [os.path.join] of the further segments. *)
Theorem init_root_of_first_segment :
  forall (W : Type) (api : Winreg W) (path : string) (deep : bool)
         (seg0 seg1 : string) (segs : list string) (id : Z),
    roots_by_name api ->
    PyStr.split PyStr.sep path = seg0 :: seg1 :: segs ->
    In (id, PyStr.upper seg0) HKEY_MAP ->
    exists k canonical,
      __init__ api path None deep = Ok k
      /\ HKEY_MAP_get HKEY_MAP (_hkey k) = Some canonical
      /\ _hkey_name k = canonical
      /\ PyStr.upper canonical = PyStr.upper seg0
      /\ _path k = NtPath.join seg1 segs
      /\ _key k = None /\ _deep k = deep.
Proof.
  intros W api path deep seg0 seg1 segs id Hroots Hsplit Hin.
  unfold __init__. rewrite Hsplit. cbn [hd tl os_path_join].
  rewrite (Hroots _ _ Hin).
  eexists. exists (PyStr.upper seg0). split; [reflexivity|]. cbn.
  repeat split.
  - apply (HKEY_MAP_get_In _ _ Hin).
  - apply upper_idem.
Qed.

Lemma init_root_of_first_segment_witness :
  exists k canonical,
    __init__ Registry.winreg
      "hkey_current_user\Console\C:_Windows_system32_cmd.exe" None false
    = Ok k
    /\ HKEY_MAP_get HKEY_MAP (_hkey k) = Some canonical
    /\ _hkey_name k = canonical
    /\ PyStr.upper canonical = PyStr.upper "hkey_current_user"
    /\ _path k = NtPath.join "Console" ["C:_Windows_system32_cmd.exe"]
    /\ _key k = None /\ _deep k = false.
Proof.
  apply (init_root_of_first_segment Registry.World Registry.winreg
           "hkey_current_user\Console\C:_Windows_system32_cmd.exe" false
           "hkey_current_user" "Console" ["C:_Windows_system32_cmd.exe"]
           HKEY_CURRENT_USER).
  - exact registry_roots_by_name.
  - reflexivity.
  - simpl. auto.
Defined.





(** the [__exit__] of the methods above is [exit_with] over a [CloseKey]
    that always returns *)
Lemma exit_with_total_close {W : Type} (api : Winreg W) (self : RegKey)
  (exc : option exn) (w : W) :
  exit_with (fun h w => (Ok tt, CloseKey api h w)) self exc w
  = ((fst (__exit__ api self exc w), Ok tt), snd (__exit__ api self exc w)).
Proof. reflexivity. Qed.


(** C7, at a subkey whose name starts with a slash: the key [Odd] has the
    subkeys [C] and [/x].  The handle derived for [/x] lies at the path [/x],
    which resolves to no key, not at [Odd\/x]; a recursive iteration yields
    it, fails to open it with "not found" and ends there, and a
    non-recursive one yields this handle that does not lead to the
    subkey. *)
Theorem iter_slash_subkey :
  Registry.assoc String.eqb (Registry.subkeys_of OddExamples.odd_key) "/x"
  = Some (Registry.MkKey [] [])
  /\ get_sub_key Registry.winreg OddExamples.odd_handle "/x" None
     = Ok {| _hkey_name := "HKEY_USERS"; _path := "/x"; _hkey := HKEY_USERS;
             _key := None; _deep := true |}
  /\ Registry.resolve OddExamples.odd_entered_world HKEY_USERS "/x" = None
  /\ Registry.resolve OddExamples.odd_entered_world HKEY_USERS "Odd\/x"
     = Some (Registry.MkKey [] [])
  /\ exists w',
      __iter__ Registry.winreg 6 OddExamples.odd_handle []
        OddExamples.odd_entered_world
      = Some (([IValue {| name := "V"; data := PInt 5;
                          type := Registry.REG_DWORD |};
                IKey (TreeSpec.child_handle "HKEY_USERS" HKEY_USERS true
                        ["Odd"] "C");
                IValue {| name := "D"; data := PInt 2;
                          type := Registry.REG_DWORD |};
                IKey (TreeSpec.child_handle "HKEY_USERS" HKEY_USERS true
                        ["Odd"; "C"] "E");
                IKey {| _hkey_name := "HKEY_USERS"; _path := "/x";
                        _hkey := HKEY_USERS; _key := None; _deep := true |}],
               Raise (WindowsError Registry.ERROR_FILE_NOT_FOUND)), w').
Proof. repeat split. eexists. reflexivity. Qed.

(** C9, at a name with a slash: the key [Slash] has a value named [a/b] and
    a subkey named [a/b].  [to_dict] stores the subkey under [key.name],
    which is [b], the part of the name after the slash: the entry [a/b] of
    the mapping stays the raw value, and the subkey's mapping lies under
    [b]. *)
Theorem to_dict_slash_name :
  Registry.first_value (Registry.values_of SlashExamples.slash_key) "a/b"
  = Some (PInt 7, Registry.REG_DWORD)
  /\ Registry.assoc String.eqb (Registry.subkeys_of SlashExamples.slash_key)
       "a/b"
     = Some (Registry.MkKey [("Y", PStr "y", Registry.REG_SZ)] [])
  /\ exists w',
      to_dict Registry.winreg 6 SlashExamples.slash_handle false
        SlashExamples.slash_entered_world
      = Some (Ok [("a/b", ORaw (PInt 7));
                  ("b", ODict [("Y", ORaw (PStr "y"))])], w').
Proof. repeat split. eexists. reflexivity. Qed.
